(** * Migration scripts of auto-sdk-java: [scripts/convert.py] and
      [scripts/appium-conversion.py]

    A shallow embedding of the two Python scripts: the text passes of the
    Java/POM rewriter, its command-line driver over a small file-system
    model, and the capability rewriter for JSON files.  Python strings are
    modelled as [string] (sequences of 8-bit characters; the texts handled
    here are ASCII), the [re] module by a backtracking matcher with
    CPython's priorities, and printing by an explicit list of output lines. *)

From Stdlib Require Import Bool Arith Lia List Ascii String.
Import ListNotations.

Local Open Scope list_scope.
Local Open Scope string_scope.
Local Open Scope nat_scope.

(* ================================================================== *)
(** * Python string primitives *)
(* ================================================================== *)

Module Py.

Definition nl : ascii := ascii_of_nat 10.
Definition dq : ascii := ascii_of_nat 34.
Definition NL : string := String nl "".
Definition DQ : string := String dq "".

(** [str.isspace] on one character, code points below 128:
    tab, LF, VT, FF, CR, the separators 28..31 and the space. *)
Definition is_space (c : ascii) : bool :=
  let n := nat_of_ascii c in
  ((9 <=? n) && (n <=? 13)) || ((28 <=? n) && (n <=? 32)).

(** [s[:n]] and [s[n:]]; both saturate at the end of the text, as
    Python slices do. *)
Fixpoint take (n : nat) (s : string) : string :=
  match n, s with
  | S n', String c s' => String c (take n' s')
  | _, _ => ""
  end.

Fixpoint drop (n : nat) (s : string) : string :=
  match n, s with
  | S n', String _ s' => drop n' s'
  | _, _ => s
  end.

(** [s[i:j]] *)
Definition slice (i j : nat) (s : string) : string := take (j - i) (drop i s).

(** [sub in s] *)
Fixpoint contains (sub s : string) : bool :=
  prefix sub s ||
  match s with
  | EmptyString => false
  | String _ s' => contains sub s'
  end.

(** [s.endswith(suf)] *)
Definition endswith (s suf : string) : bool :=
  (length suf <=? length s) && (drop (length s - length suf) s =? suf)%string.

(** [s.rstrip()] *)
Fixpoint rstrip (s : string) : string :=
  match s with
  | EmptyString => ""
  | String c s' =>
      match rstrip s' with
      | EmptyString => if is_space c then "" else String c ""
      | r => String c r
      end
  end.

(** [s.lower()] on ASCII letters. *)
Definition lower_char (c : ascii) : ascii :=
  let n := nat_of_ascii c in
  if (65 <=? n) && (n <=? 90) then ascii_of_nat (n + 32) else c.

Fixpoint lower (s : string) : string :=
  match s with
  | EmptyString => ""
  | String c s' => String (lower_char c) (lower s')
  end.

(** [s.replace(old, new)]: the occurrences of [old] are taken from left
    to right and do not overlap; [skip] counts the characters of the
    occurrence just replaced that are still to be passed over. *)
Fixpoint replace_scan (old new : string) (skip : nat) (s : string) : string :=
  match s with
  | EmptyString => ""
  | String c s' =>
      match skip with
      | S n => replace_scan old new n s'
      | O =>
          if prefix old s
          then new ++ replace_scan old new (length old - 1) s'
          else String c (replace_scan old new 0 s')
      end
  end.

(** With an empty [old] Python puts [new] around every character. *)
Fixpoint intersperse (new s : string) : string :=
  match s with
  | EmptyString => new
  | String c s' => new ++ String c (intersperse new s')
  end.

Definition replace (old new s : string) : string :=
  match old with
  | EmptyString => intersperse new s
  | _ => replace_scan old new 0 s
  end.

(** [s.split(sep)] for a non-empty [sep]: the first piece and the list of
    the following ones. *)
Fixpoint split_from (sep : string) (skip : nat) (s : string) : string * list string :=
  match s with
  | EmptyString => ("", [])
  | String c s' =>
      match skip with
      | S n => split_from sep n s'
      | O =>
          if prefix sep s
          then let (h, t) := split_from sep (length sep - 1) s' in ("", h :: t)
          else let (h, t) := split_from sep 0 s' in (String c h, t)
      end
  end.

Definition split (sep s : string) : list string :=
  let (h, t) := split_from sep 0 s in h :: t.

(** [sep.join(ls)] *)
Definition join (sep : string) (ls : list string) : string := concat sep ls.

(** [ls.insert(i, x)]: an index past the end appends. *)
Definition list_insert {A : Type} (i : nat) (x : A) (ls : list A) : list A :=
  (firstn i ls ++ x :: skipn i ls)%list.

(** A Python [set] of strings, used for membership only. *)
Definition str_set := list string.
Definition set_mem (x : string) (s : str_set) : bool := existsb (String.eqb x) s.
Definition set_add (x : string) (s : str_set) : str_set :=
  if set_mem x s then s else x :: s.

(** ** Text files

    [open(path, 'r')] opens a file in text mode: the bytes are decoded
    (UTF-8) and, [newline] being [None], every [CR LF] and every other
    [CR] is handed to the program as one [LF]. *)

Definition cr : ascii := ascii_of_nat 13.
Definition CRLF : string := String cr NL.

Fixpoint universal_newlines (s : string) : string :=
  match s with
  | EmptyString => ""
  | String c s' =>
      if Ascii.eqb c cr
      then match s' with
           | String d s'' =>
               if Ascii.eqb d nl then String nl (universal_newlines s'')
               else String nl (universal_newlines s')
           | EmptyString => NL
           end
      else String c (universal_newlines s')
  end.

Definition between (lo hi : nat) (c : ascii) : bool :=
  (lo <=? nat_of_ascii c) && (nat_of_ascii c <=? hi).

(** A continuation byte of UTF-8. *)
Definition continuation (c : ascii) : bool := between 128 191 c.

(** The byte sequences the strict UTF-8 decoder accepts; on the others
    [read] raises [UnicodeDecodeError]. *)
Fixpoint utf8_valid (s : string) : bool :=
  match s with
  | EmptyString => true
  | String a s1 =>
      if between 0 127 a then utf8_valid s1
      else
        match s1 with
        | EmptyString => false
        | String b s2 =>
            if between 194 223 a then continuation b && utf8_valid s2
            else
              match s2 with
              | EmptyString => false
              | String c s3 =>
                  if between 224 239 a
                  then (if between 224 224 a then between 160 191 b
                        else if between 237 237 a then between 128 159 b
                        else continuation b)
                       && continuation c && utf8_valid s3
                  else
                    match s3 with
                    | EmptyString => false
                    | String d s4 =>
                        between 240 244 a
                        && (if between 240 240 a then between 144 191 b
                            else if between 244 244 a then between 128 143 b
                            else continuation b)
                        && continuation c && continuation d && utf8_valid s4
                    end
              end
        end
  end.

(** The texts the passes are modelled for: every character below 128,
    so that a character of the text is a byte of the file. *)
Fixpoint is_ascii (s : string) : bool :=
  match s with
  | EmptyString => true
  | String c s' => between 0 127 c && is_ascii s'
  end.

End Py.

(* ================================================================== *)
(** * The fragment of Python's [re] used by the scripts *)
(* ================================================================== *)

Module Re.

(** One-character items: a literal, [.] (which matches a newline only
    under [re.DOTALL]) and [\s]. *)
Inductive cclass : Type :=
| CChar (c : ascii)
| CAny (dotall : bool)
| CSpace.

(** Patterns: concatenation, the greedy star and numbered capturing
    groups.  [r+] is read as [r r*]. *)
Inductive regex : Type :=
| Fail
| Eps
| Atom (c : cclass)
| Seq (r1 r2 : regex)
| Star (r : regex)
| Group (n : nat) (r : regex).

Definition cls_match (c : cclass) (a : ascii) : bool :=
  match c with
  | CChar x => Ascii.eqb x a
  | CAny dotall => dotall || negb (Ascii.eqb a Py.nl)
  | CSpace => Py.is_space a
  end.

(** ** Reading a pattern string *)

(** The items of a sequence being read, last one first. *)
Definition frame := list regex.

Definition seq_of (f : frame) : regex :=
  fold_left (fun acc a => Seq a acc) f Eps.

Definition is_alnum (c : ascii) : bool :=
  let n := nat_of_ascii c in
  ((48 <=? n) && (n <=? 57)) || ((65 <=? n) && (n <=? 90)) || ((97 <=? n) && (n <=? 122)).

(** [stack] holds, for every group still open, its number and the
    sequence that was being read when it opened; [next] is the number
    of the next group.  A brace stands for itself (the only braces of
    the scripts, in [\${helper.sdk.version}], do not form a repetition
    count).  Syntax outside the fragment gives [None]. *)
Fixpoint parse_aux (dotall : bool) (s : string) (cur : frame)
         (stack : list (nat * frame)) (next : nat) : option regex :=
  match s with
  | EmptyString =>
      match stack with
      | [] => Some (seq_of cur)
      | _ :: _ => None
      end
  | String c s' =>
      if Ascii.eqb c "\" then
        match s' with
        | EmptyString => None
        | String d s'' =>
            if Ascii.eqb d "s" then parse_aux dotall s'' (Atom CSpace :: cur) stack next
            else if is_alnum d then None
            else parse_aux dotall s'' (Atom (CChar d) :: cur) stack next
        end
      else if Ascii.eqb c "." then parse_aux dotall s' (Atom (CAny dotall) :: cur) stack next
      else if Ascii.eqb c "*" then
        match cur with
        | a :: cur' => parse_aux dotall s' (Star a :: cur') stack next
        | [] => None
        end
      else if Ascii.eqb c "+" then
        match cur with
        | a :: cur' => parse_aux dotall s' (Seq a (Star a) :: cur') stack next
        | [] => None
        end
      else if Ascii.eqb c "(" then parse_aux dotall s' [] ((next, cur) :: stack) (S next)
      else if Ascii.eqb c ")" then
        match stack with
        | (n, outer) :: stack' => parse_aux dotall s' (Group n (seq_of cur) :: outer) stack' next
        | [] => None
        end
      else if existsb (Ascii.eqb c) ["?"; "["; "]"; "|"; "^"; "$"]%char then None
      else parse_aux dotall s' (Atom (CChar c) :: cur) stack next
  end.

Definition parse (dotall : bool) (s : string) : option regex :=
  parse_aux dotall s [] [] 1.

(** [re.compile]: every pattern of the scripts lies in the fragment; a
    pattern outside it is read as one that never matches. *)
Definition compile_with (dotall : bool) (s : string) : regex :=
  match parse dotall s with
  | Some r => r
  | None => Fail
  end.

Definition compile : string -> regex := compile_with false.

(** ** Matching *)

(** Captured groups, most recent first. *)
Definition caps := list (nat * string).

Fixpoint group_of (n : nat) (cs : caps) : string :=
  match cs with
  | [] => ""
  | (m, g) :: cs' => if m =? n then g else group_of n cs'
  end.

(** The rounds of a greedy star whose body is matched by [body]: one
    more round is tried before stopping, and a round that consumes
    nothing is not repeated.  [fuel] bounds the rounds by the length
    of the text. *)
Fixpoint star_rounds {A : Type}
         (body : string -> caps -> (string -> caps -> option A) -> option A)
         (k : string -> caps -> option A)
         (fuel : nat) (s0 : string) (cs0 : caps) {struct fuel} : option A :=
  match fuel with
  | O => k s0 cs0
  | S fuel' =>
      match body s0 cs0
              (fun s1 cs1 =>
                 if length s1 <? length s0 then star_rounds body k fuel' s1 cs1 else None) with
      | Some x => Some x
      | None => k s0 cs0
      end
  end.

(** Backtracking matcher in continuation-passing style: [k] receives
    what is left of the text and the groups closed so far; the first
    success in CPython's order of attempts is returned. *)
Fixpoint rmatch {A : Type} (r : regex) (s : string) (cs : caps)
         (k : string -> caps -> option A) {struct r} : option A :=
  match r with
  | Fail => None
  | Eps => k s cs
  | Atom c =>
      match s with
      | EmptyString => None
      | String a s' => if cls_match c a then k s' cs else None
      end
  | Seq r1 r2 => rmatch r1 s cs (fun s1 cs1 => rmatch r2 s1 cs1 k)
  | Star r1 => star_rounds (rmatch r1) k (length s) s cs
  | Group n r1 =>
      rmatch r1 s cs
        (fun s1 cs1 => k s1 ((n, Py.take (length s - length s1) s) :: cs1))
  end.

(** A match anchored at the start of [s]: its length and its groups. *)
Definition match_at (r : regex) (s : string) : option (nat * caps) :=
  rmatch r s [] (fun rest cs => Some (length s - length rest, cs)).

(** [re.search]: the leftmost match, as [(start, end)]. *)
Fixpoint search_from (r : regex) (i : nat) (s : string) : option (nat * nat) :=
  match match_at r s with
  | Some (n, _) => Some (i, i + n)
  | None =>
      match s with
      | EmptyString => None
      | String _ s' => search_from r (S i) s'
      end
  end.

Definition search (r : regex) (s : string) : option (nat * nat) := search_from r 0 s.

(** Replacement templates: [\n] is a newline and [\1] the text of the
    first group, any other character stands for itself. *)
Fixpoint expand (tmpl : string) (cs : caps) : string :=
  match tmpl with
  | EmptyString => ""
  | String c t =>
      if Ascii.eqb c "\" then
        match t with
        | String d t' =>
            if Ascii.eqb d "n" then String Py.nl (expand t' cs)
            else if Ascii.eqb d "1" then group_of 1 cs ++ expand t' cs
            else String c (String d (expand t' cs))
        | EmptyString => String c ""
        end
      else String c (expand t cs)
  end.

(** [re.sub]: matches are taken from left to right and do not overlap;
    [skip] counts the characters of the current match still to be
    passed over.  An empty match is replaced as well and the scan then
    moves on by one character (no pattern of the scripts matches the
    empty text). *)
Fixpoint sub_scan (r : regex) (tmpl : string) (skip : nat) (s : string) : string :=
  match skip with
  | S n =>
      match s with
      | EmptyString => ""
      | String _ s' => sub_scan r tmpl n s'
      end
  | O =>
      match match_at r s with
      | Some (len, cs) =>
          expand tmpl cs ++
          match len, s with
          | _, EmptyString => ""
          | O, String c s' => String c (sub_scan r tmpl 0 s')
          | S n, String _ s' => sub_scan r tmpl n s'
          end
      | None =>
          match s with
          | EmptyString => ""
          | String c s' => String c (sub_scan r tmpl 0 s')
          end
      end
  end.

Definition sub (r : regex) (tmpl : string) (s : string) : string := sub_scan r tmpl 0 s.

(** [re.finditer]: the text of every match, in order. *)
Fixpoint finditer_scan (r : regex) (skip : nat) (s : string) : list string :=
  match skip with
  | S n =>
      match s with
      | EmptyString => []
      | String _ s' => finditer_scan r n s'
      end
  | O =>
      match match_at r s with
      | Some (len, _) =>
          Py.take len s ::
          match s with
          | EmptyString => []
          | String _ s' => finditer_scan r (len - 1) s'
          end
      | None =>
          match s with
          | EmptyString => []
          | String _ s' => finditer_scan r 0 s'
          end
      end
  end.

Definition finditer (r : regex) (s : string) : list string := finditer_scan r 0 s.

End Re.

(* ================================================================== *)
(** * [scripts/convert.py]: the text passes *)
(* ================================================================== *)

Module Convert.
Import Py.

(** The table of [replace_imports]: old package (a pattern), new package. *)
Definition imports : list (string * string) :=
  [
    ("com.applause.auto.pageobjectmodel.elements.BaseElement", "com.applause.auto.pageobjectmodel.base.BaseElement");
    ("com.applause.allure.appenders", "com.applause.auto.helpers.allure.appenders");
    ("com.applause.allure", "com.applause.auto.helpers.allure");
    ("com.applause.email", "com.applause.auto.helpers.email");
    ("com.applause.google", "com.applause.auto.helpers.google");
    ("com.applause.http.mapping", "com.applause.auto.helpers.http.mapping");
    ("com.applause.http.restassured.client", "com.applause.auto.helpers.http.restassured.client");
    ("com.applause.http.restassured", "com.applause.auto.helpers.http.restassured");
    ("com.applause.jira.annotations.scanner", "com.applause.auto.helpers.jira.annotations.scanner");
    ("com.applause.jira.annotations", "com.applause.auto.helpers.jira.annotations");
    ("com.applause.jira.clients.modules.jira", "com.applause.auto.helpers.jira.clients.modules.jira");
    ("com.applause.jira.clients.modules.xray", "com.applause.auto.helpers.jira.clients.modules.xray");
    ("com.applause.jira.clients", "com.applause.auto.helpers.jira.clients");
    ("com.applause.jira.constants", "com.applause.auto.helpers.jira.constants");
    ("com.applause.jira.dto.jql", "com.applause.auto.helpers.jira.dto.jql");
    ("com.applause.jira.dto.requestmappers", "com.applause.auto.helpers.jira.dto.requestmappers");
    ("com.applause.jira.dto.responsemappers.iteration", "com.applause.auto.helpers.jira.dto.responsemappers.iteration");
    ("com.applause.jira.dto.responsemappers.steps", "com.applause.auto.helpers.jira.dto.responsemappers.steps");
    ("com.applause.jira.dto.responsemappers", "com.applause.auto.helpers.jira.dto.responsemappers");
    ("com.applause.jira.dto.shared", "com.applause.auto.helpers.jira.dto.shared");
    ("com.applause.jira.exceptions", "com.applause.auto.helpers.jira.exceptions");
    ("com.applause.jira.helper", "com.applause.auto.helpers.jira.helper");
    ("com.applause.jira.listeners", "com.applause.auto.testng.listeners");
    ("com.applause.jira.restclient", "com.applause.auto.helpers.jira.restclient");
    ("com.applause.mobile.deeplinks", "com.applause.auto.helpers.mobile.deeplinks");
    ("com.applause.mobile.file_uploading.SauceLabs", "com.applause.auto.helpers.mobile.fileuploading.saucelabs");
    ("com.applause.mobile", "com.applause.auto.helpers.mobile");
    ("com.applause.testdata.yaml", "com.applause.auto.helpers.testdata.yaml");
    ("com.applause.testdata", "com.applause.auto.helpers.testdata");
    ("com.applause.util", "com.applause.auto.helpers.util");
    ("com.applause.web", "com.applause.auto.helpers.web")
  ].

(** The copy of the script at the top of the repository, [convert.py],
    has the same passes with this shorter table. *)
Definition imports_root : list (string * string) :=
  [ ("com.applause.auto.pageobjectmodel.elements.BaseElement",
     "com.applause.auto.pageobjectmodel.base.BaseElement") ].

(** [line[:6] == "import"] *)
Definition is_import (line : string) : bool := (take 6 line =? "import")%string.

(** The loop of [replace_imports] over the lines, with the set
    [existing_imports]. *)
Fixpoint dedup_imports (lines : list string) (existing_imports : str_set) : list string :=
  match lines with
  | [] => []
  | line :: rest =>
      if set_mem line existing_imports then dedup_imports rest existing_imports
      else if is_import line
           then line :: dedup_imports rest (set_add line existing_imports)
           else line :: dedup_imports rest existing_imports
  end.

Definition replace_imports_with (table : list (string * string)) (contents : string) : string :=
  let contents :=
    fold_left (fun c '(old_import, new_import) => Re.sub (Re.compile old_import) new_import c)
              table contents in
  join NL (dedup_imports (split NL contents) []).

Definition replace_imports : string -> string := replace_imports_with imports.

(** The loop of [add_import_if_not_present] over [enumerate(lines)]:
    the lines appended to [lines_without_duplicates] from line [i] on,
    and the final values of [last_import] and [contains_import]. *)
Fixpoint scan_lines (import_statement : string) (i : nat) (lines : list string)
         (existing_imports : str_set) (last_import : nat) (contains_import : bool)
  : list string * nat * bool :=
  match lines with
  | [] => ([], last_import, contains_import)
  | line :: rest =>
      if set_mem line existing_imports
      then scan_lines import_statement (S i) rest existing_imports last_import contains_import
      else if is_import line
      then
        let '(out, last, found) :=
          scan_lines import_statement (S i) rest
                     (set_add (rstrip line) existing_imports) i
                     (if endswith (rstrip line) import_statement then true else contains_import) in
        (rstrip line :: out, last, found)
      else
        let '(out, last, found) :=
          scan_lines import_statement (S i) rest existing_imports last_import contains_import in
        (rstrip line :: out, last, found)
  end.

Definition add_import_if_not_present (import_statement contents : string) : string :=
  let lines := split NL contents in
  let '(lines_without_duplicates, last_import, contains_import) :=
    scan_lines import_statement 0 lines [] 1 false in
  let lines_without_duplicates :=
    if contains_import then lines_without_duplicates
    else list_insert last_import import_statement lines_without_duplicates in
  join NL lines_without_duplicates.

Definition locators : list (string * string) :=
  [
    ("@Locate\(\s*id = ", "using = Strategy.ID, value = ");
    ("@Locate\(\s*css = ", "using = Strategy.CSS, value = ");
    ("@Locate\(\s*xpath = ", "using = Strategy.XPATH, value = ");
    ("@Locate\(\s*className = ", "using = Strategy.CLASSNAME, value = ");
    ("@Locate\(\s*name = ", "using = Strategy.NAME, value = ");
    ("@Locate\(\s*tagName = ", "using = Strategy.TAGNAME, value = ");
    ("@Locate\(\s*linkText = ", "using = Strategy.LINKTEXT, value = ");
    ("@Locate\(\s*accessibilityId = ", "using = Strategy.ACCESSIBILITYID, value = ");
    ("@Locate\(\s*androidUIAutomator = ", "using = Strategy.ANDROID_UIAUTOMATOR, value = ");
    ("@Locate\(\s*iOSClassChain = ", "using = Strategy.IOS_CLASSCHAIN, value = ");
    ("@Locate\(\s*iOSNsPredicate = ", "using = Strategy.IOS_NSPREDICATE, value = ");
    ("@Locate\(\s*appiumClassName = ", "using = Strategy.APPIUM_CLASSNAME, value = ");
    ("@Locate\(\s*jQuery = ", "using = Strategy.JQUERY, value = ");
    ("@Locate\(\s*javascript = ", "using = Strategy.JAVASCRIPT, value = ")
  ].

Definition strategy_import : string :=
  "import com.applause.auto.pageobjectmodel.base.Strategy;".

(** The first loop tests [old_style_locator in contents], a substring
    test on the pattern's own text; the second one substitutes. *)
Definition fix_locators (contents : string) : string :=
  let contents :=
    if existsb (fun '(old_style_locator, _) => contains old_style_locator contents) locators
    then add_import_if_not_present strategy_import contents
    else contents in
  fold_left
    (fun c '(old_style_locator, new_style_locator) =>
       Re.sub (Re.compile old_style_locator) ("@Locate(" ++ new_style_locator) c)
    locators contents.

Definition sub_component_warning : string :=
  "@Locate annotation found without an underlying locator. If no locator is tied to the element, please add the @SubComponent annotation.".

Definition check_for_sub_components (contents : string) : option string :=
  if existsb (fun g => negb (contains "using" g))
             (Re.finditer (Re.compile "@Locate\(.*\)") contents)
  then Some sub_component_warning
  else None.

Definition check_for_get_web_element (contents : string) : option string :=
  match Re.finditer (Re.compile "getWebElement") contents with
  | [] => None
  | _ :: _ => Some "getWebElement() method found. Please replace with getUnderlyingWebElement()"
  end.

Definition check_for_applause_config_usage (contents : string) : string :=
  Re.sub (Re.compile "ApplauseEnvironmentConfigurationManager.get()")
         "ApplauseEnvironmentConfigurationManager.INSTANCE.get()" contents.

Definition check_for_config_usage (contents : string) : string :=
  Re.sub (Re.compile "EnvironmentConfigurationManager.get()")
         "EnvironmentConfigurationManager.INSTANCE.get()" contents.

(** The pattern searched before the loop, and the one searched at the
    end of every round (it has no semicolon). *)
Definition sdk_create_first : Re.regex := Re.compile "SdkHelper.create\(.+.class\);".
Definition sdk_create_again : Re.regex := Re.compile "SdkHelper.create\(.+.class\)".

Definition builder_import : string :=
  "import com.applause.auto.pageobjectmodel.builder.PageObjectBuilder;".

(** The two literal parts of the replacement, around the class name. *)
Definition builder_head : string :=
  "PageObjectBuilder.withContext(SdkHelper.getDriverContext()).forBaseComponent(".
Definition builder_tail : string := ".class).initialize();".

(** One round of the [while] loop of [remove_sdk_helper_create] for the
    match [result].  The matched text always holds a parenthesis, so
    [split('(')[1]] is defined. *)
Definition sdk_round (contents : string) (result : nat * nat) : string :=
  let (start, stop) := result in
  let group := slice start stop contents in
  let className := nth 0 (split ".class" (nth 1 (split "(" group) "")) "" in
  let contents :=
    take start contents ++ builder_head ++ className ++ builder_tail
    ++ drop stop contents in
  add_import_if_not_present builder_import contents.

(** The [while] loop with a budget of rounds; [None] when the budget
    runs out before the search fails. *)
Fixpoint sdk_loop (fuel : nat) (result : option (nat * nat)) (contents : string)
  : option string :=
  match result with
  | None => Some contents
  | Some m =>
      match fuel with
      | O => None
      | S fuel' =>
          let contents' := sdk_round contents m in
          sdk_loop fuel' (Re.search sdk_create_again contents') contents'
      end
  end.

Definition remove_sdk_helper_create (fuel : nat) (contents : string) : option string :=
  sdk_loop fuel (Re.search sdk_create_first contents) contents.

(** The text passes of [convert_java] up to the factory-call rewrite. *)
Definition java_prefix_passes (table : list (string * string)) (contents : string) : string :=
  check_for_config_usage
    (check_for_applause_config_usage
       (fix_locators (replace_imports_with table contents))).

(** What [convert_java] does to the text it read: the text written
    back and the list [warnings]. *)
Definition convert_java_text (fuel : nat) (contents : string)
  : option (string * list (option string)) :=
  match remove_sdk_helper_create fuel (java_prefix_passes imports contents) with
  | Some contents' => Some (contents', [check_for_sub_components contents'])
  | None => None
  end.

(** The rewritten text alone. *)
Definition java_rewrite (fuel : nat) (contents : string) : option string :=
  option_map fst (convert_java_text fuel contents).

(** The substitutions of [convert_pom], applied with
    [re.DOTALL | re.MULTILINE]. *)
Definition pom_substitutions : list (string * string) :=
  [ ("<com.applause.sdk.java.version>.+</com.applause.sdk.java.version>",
     "<com.applause.sdk.java.version>6.0.0</com.applause.sdk.java.version>");
    ("<source>17</source>", "<source>21</source>");
    ("<target>17</target>", "<target>21</target>");
    ("<dependency>\s+<groupId>com.applause</groupId>\s+<artifactId>auto.sdk.java</artifactId>\s+<version>.*</version>\s+<type>pom</type>\s+<scope>import</scope>\s+</dependency>",
     join NL
       [ "<dependency>";
         "                <groupId>com.applause</groupId>";
         "                <artifactId>auto-sdk-java-page-object</artifactId>";
         "                <version>${com.applause.sdk.java.version}</version>";
         "            </dependency>";
         "            <dependency>";
         "                <groupId>com.applause</groupId>";
         "                <artifactId>auto-sdk-java-testng</artifactId>";
         "                <version>${com.applause.sdk.java.version}</version>";
         "            </dependency>" ]);
    ("\s*<repository>\s*<id>github</id>\s*<name>GitHub OWNER Apache Maven Packages</name>\s*<url>https://maven.pkg.github.com/ApplauseAuto/helper-sdk.auto</url>\s*<releases>\s*<enabled>true</enabled>\s*<updatePolicy>always</updatePolicy>\s*</releases>\s*<snapshots>\s*<enabled>true</enabled>\s*</snapshots>\s*</repository>\s*",
     "");
    ("\s*<dependency>\s*<artifactId>helper-sdk</artifactId>\s*<groupId>com.applause</groupId>\s*<version>\${helper.sdk.version}</version>\s*</dependency>\s*",
     "");
    ("(</dependencies>)",
     join NL
       [ "<dependency>";
         "                    <groupId>com.applause</groupId>";
         "                    <artifactId>auto-sdk-java-helpers</artifactId>";
         "                    <version>${com.applause.sdk.java.version}</version>";
         "                </dependency>\n\1" ]) ].

Definition convert_pom_text (new_pom : string) : string :=
  fold_left (fun pom '(old_line, new_line) => Re.sub (Re.compile_with true old_line) new_line pom)
            pom_substitutions new_pom.

End Convert.


(* ================================================================== *)
(** * [scripts/appium-conversion.py]: the text passes *)
(* ================================================================== *)

Module Appium.
Import Py.

Definition unused_applause_options : list (string * list string) :=
  [ ("isStrict", ["true"; "false"]);
    ("isMobileNative", ["false"]) ].

Definition capabilities_to_update : list (string * list string) :=
  [
    ("adbExecTimeout", ["all"]);
    ("adbPort", ["all"]);
    ("absoluteWebLocations", ["all"]);
    ("additionalWebviewBundleIds", ["all"]);
    ("allowDelayAdb", ["all"]);
    ("allowProvisioningDeviceRegistration", ["all"]);
    ("allowTestPackages", ["all"]);
    ("androidInstallTimeout", ["all"]);
    ("app", ["all"]);
    ("appActivity", ["all"]);
    ("appInstallStrategy", ["all"]);
    ("appPackage", ["all"]);
    ("appPushTimeout", ["all"]);
    ("appWaitActivity", ["all"]);
    ("appWaitDuration", ["all"]);
    ("appWaitForLaunch", ["all"]);
    ("appWaitPackage", ["all"]);
    ("autoAcceptAlerts", ["all"]);
    ("autoDismissAlerts", ["all"]);
    ("autoFillPasswords", ["all"]);
    ("autoGrantPermissions", ["all"]);
    ("autoLaunch", ["all"]);
    ("autoWebview", ["all"]);
    ("autoWebviewName", ["all"]);
    ("autoWebviewTimeout", ["all"]);
    ("automationName", ["all"]);
    ("avd", ["all"]);
    ("avdArgs", ["all"]);
    ("avdEnv", ["all"]);
    ("avdLaunchTimeout", ["all"]);
    ("avdReadyTimeout", ["all"]);
    ("buildToolsVersion", ["all"]);
    ("bundleId", ["all"]);
    ("calendarAccessAuthorized", ["all"]);
    ("calendarFormat", ["all"]);
    ("chromeLoggingPrefs", ["all"]);
    ("chromeOptions", ["all"]);
    ("chromedriverArgs", ["all"]);
    ("chromedriverChromeMappingFile", ["all"]);
    ("chromedriverDisableBuildCheck", ["all"]);
    ("chromedriverExecutable", ["all"]);
    ("chromedriverExecutableDir", ["all"]);
    ("chromedriverPort", ["all"]);
    ("chromedriverPorts", ["all"]);
    ("chromedriverUseSystemExecutable", ["all"]);
    ("clearDeviceLogsOnStart", ["all"]);
    ("clearSystemFiles", ["all"]);
    ("commandTimeouts", ["all"]);
    ("connectHardwareKeyboard", ["all"]);
    ("customSSLCert", ["all"]);
    ("derivedDataPath", ["all"]);
    ("deviceName", ["mobileweb_saucelabs"; "mobilenative_all"; "native_all"]);
    ("disableAutomaticScreenshots", ["all"]);
    ("disableSuppressAccessibilityService", ["all"]);
    ("disableWindowAnimation", ["all"]);
    ("dontStopAppOnReset", ["all"]);
    ("enableAsyncExecuteFromHttps", ["all"]);
    ("enablePerformanceLogging", ["all"]);
    ("enableWebviewDetailsCollection", ["all"]);
    ("enforceAppInstall", ["all"]);
    ("enforceFreshSimulatorCreation", ["all"]);
    ("ensureWebviewsHavePages", ["all"]);
    ("extractChromeAndroidPackageFromContextName", ["all"]);
    ("forceAppLaunch", ["all"]);
    ("forceSimulatorSoftwareKeyboardPresence", ["all"]);
    ("fullContextList", ["all"]);
    ("fullReset", ["all"]);
    ("gpsEnabled", ["all"]);
    ("hideKeyboard", ["all"]);
    ("ignoreHiddenApiPolicyError", ["all"]);
    ("includeDeviceCapsToSessionInfo", ["all"]);
    ("includeSafariInWebviews", ["all"]);
    ("injectedImageProperties", ["all"]);
    ("intentAction", ["all"]);
    ("intentCategory", ["all"]);
    ("intentFlags", ["all"]);
    ("iosInstallPause", ["all"]);
    ("iosSimulatorLogsPredicate", ["all"]);
    ("isHeadless", ["all"]);
    ("keepKeyChains", ["all"]);
    ("keyAlias", ["all"]);
    ("keyPassword", ["all"]);
    ("keychainPassword", ["all"]);
    ("keychainPath", ["all"]);
    ("keychainsExcludePatterns", ["all"]);
    ("keystorePassword", ["all"]);
    ("keystorePath", ["all"]);
    ("language", ["all"]);
    ("launchWithIDB", ["all"]);
    ("locale", ["all"]);
    ("localeScript", ["all"]);
    ("localizableStringsDir", ["all"]);
    ("logcatFilterSpecs", ["all"]);
    ("logcatFormat", ["all"]);
    ("maxTypingFrequency", ["all"]);
    ("mjpegScreenshotUrl", ["all"]);
    ("mjpegServerPort", ["all"]);
    ("mockLocationApp", ["all"]);
    ("nativeWebScreenshot", ["all"]);
    ("nativeWebTap", ["all"]);
    ("nativeWebTapStrict", ["all"]);
    ("networkSpeed", ["all"]);
    ("newCommandTimeout", ["all"]);
    ("noReset", ["all"]);
    ("noSign", ["all"]);
    ("optionalIntentArguments", ["all"]);
    ("orientation", ["all"]);
    ("otherApps", ["all"]);
    ("permissions", ["all"]);
    ("platformVersion", ["all"]);
    ("prebuiltWDAPath", ["all"]);
    ("printPageSourceOnFindFailure", ["all"]);
    ("processArguments", ["all"]);
    ("recreateChromeDriverSessions", ["all"]);
    ("reduceMotion", ["all"]);
    ("reduceTransparency", ["all"]);
    ("remoteAdbHost", ["all"]);
    ("remoteAppsCacheLimit", ["all"]);
    ("resetLocationService", ["all"]);
    ("resetOnSessionStartOnly", ["all"]);
    ("resultBundlePath", ["all"]);
    ("resultBundleVersion", ["all"]);
    ("safariAllowPopups", ["all"]);
    ("safariGarbageCollect", ["all"]);
    ("safariGlobalPreferences", ["all"]);
    ("safariIgnoreFraudWarning", ["all"]);
    ("safariIgnoreWebHostnames", ["all"]);
    ("safariInitialUrl", ["all"]);
    ("safariLogAllCommunication", ["all"]);
    ("safariLogAllCommunicationHexDump", ["all"]);
    ("safariOpenLinksInBackground", ["all"]);
    ("safariSocketChunkSize", ["all"]);
    ("safariWebInspectorMaxFrameLength", ["all"]);
    ("scaleFactor", ["all"]);
    ("screenshotQuality", ["all"]);
    ("shouldTerminateApp", ["all"]);
    ("shouldUseSingletonTestManager", ["all"]);
    ("showChromedriverLog", ["all"]);
    ("showIOSLog", ["all"]);
    ("showXcodeLog", ["all"]);
    ("shutdownOtherSimulators", ["all"]);
    ("simpleIsVisibleCheck", ["all"]);
    ("simulatorDevicesSetPath", ["all"]);
    ("simulatorPasteboardAutomaticSync", ["all"]);
    ("simulatorStartupTimeout", ["all"]);
    ("simulatorTracePointer", ["all"]);
    ("simulatorWindowCenter", ["all"]);
    ("skipDeviceInitialization", ["all"]);
    ("skipLogCapture", ["all"]);
    ("skipLogcatCapture", ["all"]);
    ("skipServerInstallation", ["all"]);
    ("skipUnlock", ["all"]);
    ("suppressKillServer", ["all"]);
    ("systemPort", ["all"]);
    ("timeZone", ["all"]);
    ("udid", ["all"]);
    ("uiautomator2ServerInstallTimeout", ["all"]);
    ("uiautomator2ServerLaunchTimeout", ["all"]);
    ("uiautomator2ServerReadTimeout", ["all"]);
    ("uninstallOtherPackages", ["all"]);
    ("unlockKey", ["all"]);
    ("unlockStrategy", ["all"]);
    ("unlockSuccessTimeout", ["all"]);
    ("unlockType", ["all"]);
    ("updatedWDABundleId", ["all"]);
    ("useJSONSource", ["all"]);
    ("useKeystore", ["all"]);
    ("useNativeCachingStrategy", ["all"]);
    ("useNewWDA", ["all"]);
    ("usePrebuiltWDA", ["all"]);
    ("usePreinstalledWDA", ["all"]);
    ("useSimpleBuildTest", ["all"]);
    ("useXctestrunFile", ["all"]);
    ("userProfile", ["all"]);
    ("waitForIdleTimeout", ["all"]);
    ("waitForQuiescence", ["all"]);
    ("wdaBaseUrl", ["all"]);
    ("wdaConnectionTimeout", ["all"]);
    ("wdaEventloopIdleDelay", ["all"]);
    ("wdaLaunchTimeout", ["all"]);
    ("wdaLocalPort", ["all"]);
    ("wdaStartupRetries", ["all"]);
    ("wdaStartupRetryInterval", ["all"]);
    ("webDriverAgentUrl", ["all"]);
    ("webkitResponseTimeout", ["all"]);
    ("webviewConnectRetries", ["all"]);
    ("webviewConnectTimeout", ["all"]);
    ("webviewDevtoolsPort", ["all"]);
    ("xcodeConfigFile", ["all"]);
    ("xcodeOrgId", ["all"]);
    ("xcodeSigningId", ["all"]);
    ("commandTimeout", ["all"]);
    ("deviceOrientation", ["all"]);
    ("idleTimeout", ["all"])
  ].

(** ["<s>"] *)
Definition quoted (s : string) : string := DQ ++ s ++ DQ.

(** The two spellings of an obsolete pair: ["<option>": "<value>",] and
    ["<option>" : "<value>",]. *)
Definition pair_tight (option value : string) : string :=
  quoted option ++ ": " ++ quoted value ++ ",".
Definition pair_spaced (option value : string) : string :=
  quoted option ++ " : " ++ quoted value ++ ",".

(** Every function below threads the text and the lines printed so far. *)
Definition buffer : Type := string * list string.

(** The body of the inner loop over [values]: an [if]/[elif]. *)
Definition remove_unused_value (filepath option : string) (b : buffer) (value : string)
  : buffer :=
  let (contents, out) := b in
  let msg := "Removing unused option: " ++ option ++ " with value: " ++ value
             ++ " from " ++ filepath in
  if contains (pair_tight option value) contents
  then (replace (pair_tight option value) "" contents, app out [msg])
  else if contains (pair_spaced option value) contents
  then (replace (pair_spaced option value) "" contents, app out [msg])
  else b.

Definition remove_unused_options (filepath : string) (b : buffer) : buffer :=
  fold_left
    (fun b '(option, values) => fold_left (remove_unused_value filepath option) values b)
    unused_applause_options b.

Definition update_single_capability (filepath : string) (b : buffer) (capability : string)
  : buffer :=
  let (contents, out) := b in
  (replace (quoted capability) (quoted ("appium:" ++ capability)) contents,
   app out ["Updating capability: " ++ capability ++ " in " ++ filepath]).

(** The loop [for scope in cap_scope]; each [continue] moves on to the
    next scope. *)
Fixpoint update_scopes (filepath capability : string) (cap_scope : list string) (b : buffer)
  : buffer :=
  match cap_scope with
  | [] => b
  | scope :: rest =>
      let (contents, out) := b in
      let scopeparts := split "_" scope in
      if negb (List.length scopeparts =? 2)
      then update_scopes filepath capability rest
             (contents,
              app out ["Warning: Scope " ++ scope ++ " for capability " ++ capability
                       ++ " is not recognized. Skipping."])
      else
        let driver_type := nth 0 scopeparts "" in
        let driver_scope := nth 1 scopeparts "" in
        if negb (contains driver_type (lower contents))
        then update_scopes filepath capability rest
               (contents,
                app out ["Driver type " ++ driver_type ++ " for capability " ++ capability
                         ++ " not found in " ++ filepath ++ ". Skipping."])
        else if (driver_scope =? "all")%string
        then update_scopes filepath capability rest
               (update_single_capability filepath b capability)
        else if contains driver_scope (lower contents)
        then update_scopes filepath capability rest
               (update_single_capability filepath b capability)
        else update_scopes filepath capability rest
               (contents,
                app out ["Warning: Scope " ++ driver_scope ++ " for capability " ++ capability
                         ++ " not found in " ++ filepath ++ ". Skipping."])
  end.

(** The body of the loop over [capabilities_to_update]. *)
Definition update_capability (filepath : string) (b : buffer)
           (entry : string * list string) : buffer :=
  let (capability, cap_scope) := entry in
  if negb (contains (quoted capability) (fst b)) then b
  else if existsb (String.eqb "all") cap_scope
  then update_single_capability filepath b capability
  else update_scopes filepath capability cap_scope b.

Definition update_capabilities (filepath : string) (b : buffer) : buffer :=
  fold_left (update_capability filepath) capabilities_to_update b.

(** What [update_appium_capabilities] does to the text it read: the
    text written back and the lines printed. *)
Definition update_appium_capabilities_text (filepath contents : string) : buffer :=
  update_capabilities filepath (remove_unused_options filepath (contents, [])).

End Appium.

(* ================================================================== *)
(** * Files and directories *)
(* ================================================================== *)

(** The tree below the working directory.  Paths are relative to it, with
    [/] between components; [..], absolute paths and links are outside
    the model (the working directory is taken to be the root).  The
    entries of a directory are listed in the order [os.walk] reports
    them. *)
Module FS.
Import Py.

#[local] Unset Elimination Schemes.
Inductive node : Type :=
| File (data : string)
| Dir (entries : list (string * node)).
#[local] Set Elimination Schemes.

Fixpoint lookup (name : string) (es : list (string * node)) : option node :=
  match es with
  | [] => None
  | (n, x) :: es' => if (n =? name)%string then Some x else lookup name es'
  end.

Fixpoint set_entry (name : string) (x : node) (es : list (string * node))
  : list (string * node) :=
  match es with
  | [] => [(name, x)]
  | (n, y) :: es' =>
      if (n =? name)%string then (n, x) :: es' else (n, y) :: set_entry name x es'
  end.

Definition stays (c : string) : bool := (c =? "")%string || (c =? ".")%string.

Fixpoint resolve_from (comps : list string) (n : node) : option node :=
  match comps with
  | [] => Some n
  | c :: cs =>
      match n with
      | File _ => None
      | Dir es =>
          if stays c then resolve_from cs n
          else match lookup c es with
               | Some x => resolve_from cs x
               | None => None
               end
      end
  end.

Definition resolve (path : string) (root : node) : option node :=
  match path with
  | EmptyString => None
  | _ => resolve_from (split "/" path) root
  end.

(** [os.path.isfile], [os.path.isdir] *)
Definition isfile (path : string) (root : node) : bool :=
  match resolve path root with Some (File _) => true | _ => false end.

Definition isdir (path : string) (root : node) : bool :=
  match resolve path root with Some (Dir _) => true | _ => false end.

(** The characters a file holds. *)
Definition stored (path : string) (root : node) : option string :=
  match resolve path root with Some (File d) => Some d | _ => None end.

(** [open(path, 'r').read()], in text mode: the characters of the file
    decoded, with [CR LF] and [CR] turned into [LF].  [None] stands for
    the exception raised: [OSError] when there is no such file,
    [UnicodeDecodeError] when its bytes are not UTF-8. *)
Definition read (path : string) (root : node) : option string :=
  match stored path root with
  | Some d => if utf8_valid d then Some (universal_newlines d) else None
  | None => None
  end.

(** [open(path, 'w').write(data)]: the file is replaced, or created in
    an existing directory; [None] stands for the [OSError] raised.  The
    text is written as it is: the line separator of the system is taken
    to be [LF], as on Linux and macOS. *)
Fixpoint write_from (comps : list string) (data : string) (n : node) : option node :=
  match comps with
  | [] => match n with File _ => Some (File data) | Dir _ => None end
  | c :: cs =>
      match n with
      | File _ => None
      | Dir es =>
          if stays c then write_from cs data n
          else match lookup c es with
               | Some x =>
                   match write_from cs data x with
                   | Some x' => Some (Dir (set_entry c x' es))
                   | None => None
                   end
               | None =>
                   match cs with
                   | [] => Some (Dir (set_entry c (File data) es))
                   | _ :: _ => None
                   end
               end
      end
  end.

Definition write (path data : string) (root : node) : option node :=
  match path with
  | EmptyString => None
  | _ => write_from (split "/" path) data root
  end.

(** [os.path.join(a, b)] *)
Definition path_join (a b : string) : string :=
  if prefix "/" b then b
  else if (a =? "")%string || endswith a "/" then a ++ b
  else a ++ "/" ++ b.

Definition dir_names (es : list (string * node)) : list string :=
  map fst (filter (fun e => match snd e with Dir _ => true | File _ => false end) es).

Definition file_names (es : list (string * node)) : list string :=
  map fst (filter (fun e => match snd e with Dir _ => false | File _ => true end) es).

(** [os.walk(top)], top-down: one triple [(root, dirs, files)] per
    directory. *)
Fixpoint walk_node (root : string) (n : node) : list (string * list string * list string) :=
  match n with
  | File _ => []
  | Dir es =>
      (root, dir_names es, file_names es) ::
      (fix below (l : list (string * node)) : list (string * list string * list string) :=
         match l with
         | [] => []
         | (name, child) :: l' =>
             (match child with
              | Dir _ => walk_node (path_join root name) child
              | File _ => []
              end ++ below l')%list
         end) es
  end.

Definition walk (top : string) (root : node) : list (string * list string * list string) :=
  match resolve top root with
  | Some (Dir es) => walk_node top (Dir es)
  | _ => []
  end.

End FS.

(* ================================================================== *)
(** * [scripts/convert.py]: files and the command line *)
(* ================================================================== *)

Module Main.
Import Py.

(** The files and what has been printed. *)
Record world : Type := World { files : FS.node; stdout : list string }.

(** A command ends normally, or with the uncaught exception of an
    [open] or [read] ([OSError], [UnicodeDecodeError]), or because the
    loop of [remove_sdk_helper_create] was cut off by the budget of
    rounds. *)
Inductive result (A : Type) : Type :=
| Done (a : A)
| Raised (path : string)
| CutOff.
Arguments Done {A} a.
Arguments Raised {A} path.
Arguments CutOff {A}.

Definition io (A : Type) : Type := world -> result A * world.

Definition ret {A : Type} (a : A) : io A := fun w => (Done a, w).

Definition bind {A B : Type} (c : io A) (k : A -> io B) : io B :=
  fun w =>
    match c w with
    | (Done a, w') => k a w'
    | (Raised p, w') => (Raised p, w')
    | (CutOff, w') => (CutOff, w')
    end.

Notation "x <- c ;; k" := (bind c (fun x => k))
  (at level 61, c at next level, right associativity).
Notation "c ;;; k" := (bind c (fun _ => k))
  (at level 61, right associativity).

Definition print (line : string) : io unit :=
  fun w => (Done tt, World (files w) (stdout w ++ [line])%list).

Definition open_read (path : string) : io string :=
  fun w =>
    match FS.read path (files w) with
    | Some d => (Done d, w)
    | None => (Raised path, w)
    end.

Definition open_write (path data : string) : io unit :=
  fun w =>
    match FS.write path data (files w) with
    | Some fs' => (Done tt, World fs' (stdout w))
    | None => (Raised path, w)
    end.

Definition isfile (path : string) : io bool := fun w => (Done (FS.isfile path (files w)), w).
Definition isdir (path : string) : io bool := fun w => (Done (FS.isdir path (files w)), w).
Definition os_walk (top : string) : io (list (string * list string * list string)) :=
  fun w => (Done (FS.walk top (files w)), w).

Definition convert_java (fuel : nat) (filepath : string) : io (list (option string)) :=
  contents <- open_read filepath ;;
  match Convert.convert_java_text fuel contents with
  | None => fun w => (CutOff, w)
  | Some (contents', warnings) =>
      open_write filepath contents' ;;;
      print ("Converted " ++ filepath) ;;;
      ret warnings
  end.

Definition convert_pom (filepath : string) : io unit :=
  new_pom <- open_read filepath ;;
  open_write filepath (Convert.convert_pom_text new_pom) ;;;
  print ("Converted " ++ filepath).

(** The dictionary [warnings]: keys in order of first insertion. *)
Definition warn_dict : Type := list (string * list (option string)).

Fixpoint dict_set (k : string) (v : list (option string)) (d : warn_dict) : warn_dict :=
  match d with
  | [] => [(k, v)]
  | (k', v') :: d' =>
      if (k' =? k)%string then (k', v) :: d' else (k', v') :: dict_set k v d'
  end.

(** [s[-5:]] *)
Definition last5 (s : string) : string := drop (length s - 5) s.

(** [for path in files: ...] *)
Fixpoint walk_files (fuel : nat) (root : string) (files : list string) (warnings : warn_dict)
  : io warn_dict :=
  match files with
  | [] => ret warnings
  | path :: rest =>
      warnings <-
        (if (last5 path =? ".java")%string
         then ws <- convert_java fuel (FS.path_join root path) ;;
              ret (dict_set path ws warnings)
         else ret warnings) ;;
      (if (path =? "pom.xml")%string then convert_pom path else ret tt) ;;;
      walk_files fuel root rest warnings
  end.

(** [for root, dirs, files in os.walk(filepath): ...] *)
Fixpoint walk_dirs (fuel : nat) (triples : list (string * list string * list string))
         (warnings : warn_dict) : io warn_dict :=
  match triples with
  | [] => ret warnings
  | (root, _, files) :: rest =>
      warnings <- walk_files fuel root files warnings ;;
      walk_dirs fuel rest warnings
  end.

(** The body of [for filepath in sys.argv[1:]]. *)
Definition process_arg (fuel : nat) (filepath : string) (warnings : warn_dict)
  : io warn_dict :=
  f <- isfile filepath ;;
  if f && (last5 filepath =? ".java")%string
  then convert_java fuel filepath ;;; ret warnings
  else if f && (filepath =? "pom.xml")%string
  then convert_pom filepath ;;; ret warnings
  else
    d <- isdir filepath ;;
    if d
    then triples <- os_walk filepath ;; walk_dirs fuel triples warnings
    else print (filepath ++ " is not a valid Java file, pom.xml, or directory.") ;;;
         ret warnings.

Fixpoint process_args (fuel : nat) (argv : list string) (warnings : warn_dict)
  : io warn_dict :=
  match argv with
  | [] => ret warnings
  | filepath :: rest =>
      warnings <- process_arg fuel filepath warnings ;;
      process_args fuel rest warnings
  end.

Definition is_some {A : Type} (o : option A) : bool :=
  match o with Some _ => true | None => false end.

Fixpoint print_warnings (warning_list : list (option string)) : io unit :=
  match warning_list with
  | [] => ret tt
  | Some warning :: rest => print ("  - " ++ warning) ;;; print_warnings rest
  | None :: rest => print_warnings rest
  end.

(** [for filepath, warning_list in warnings.items(): ...] *)
Fixpoint report (warnings : warn_dict) : io unit :=
  match warnings with
  | [] => ret tt
  | (filepath, warning_list) :: rest =>
      (match warning_list with
       | [] => ret tt
       | _ :: _ =>
           if List.length (filter is_some warning_list) =? 0
           then ret tt
           else print (filepath ++ " warnings:") ;;; print_warnings warning_list
       end) ;;;
      report rest
  end.

Definition usage : io unit :=
  print "Usage: %s [<path-to-java-file> | <path-to-pom> | <path-to-directory>]+" ;;;
  print "Converts files from v5.0.x API to v6.0.x API.  NOTE:  Overwrites files. This conversion is not a guaranteed fix for all issues and may generate bad code. Please review all changes before committing." ;;;
  print "   <path-to-java-file>    :  relative or absolute path to java file to convert" ;;;
  print "   <path-to-pom>          :  relative or absolute path to pom.xml file to convert" ;;;
  print "   <path-to-directory>    :  relative or absolute path to a directory with .java or pom.xml files to convert".

(** The script, for the arguments [argv] (without the program name);
    [args_processed] ends as their number. *)
Definition main (fuel : nat) (argv : list string) : io unit :=
  warnings <- process_args fuel argv [] ;;
  report warnings ;;;
  (if List.length argv =? 0 then usage else ret tt).

Definition run (fuel : nat) (argv : list string) (fs : FS.node) : result unit * world :=
  main fuel argv (World fs []).

End Main.

(* ================================================================== *)
(** * A progress measure for the loop of [remove_sdk_helper_create] *)
(* ================================================================== *)

Module Progress.
Import Py.

(** [marks a b s]: the occurrences of [te(] that end in [s], when [s]
    comes right after the two characters [a] and [b]. *)
Fixpoint marks (a b : ascii) (s : string) : nat :=
  match s with
  | EmptyString => 0
  | String c s' =>
      (if Ascii.eqb c "(" && Ascii.eqb b "e" && Ascii.eqb a "t" then 1 else 0)
      + marks b c s'
  end.

(** The occurrences of [te(] in a text. *)
Definition weight (s : string) : nat := marks nl nl s.

Definition total_weight (ls : list string) : nat := list_sum (map weight ls).

(** The last two characters of [a b s]. *)
Fixpoint last2 (a b : ascii) (s : string) : ascii * ascii :=
  match s with
  | EmptyString => (a, b)
  | String c s' => last2 b c s'
  end.

(** [d not in s] *)
Fixpoint lacks (d : ascii) (s : string) : bool :=
  match s with
  | EmptyString => true
  | String c s' => negb (Ascii.eqb c d) && lacks d s'
  end.

Abbreviation no_paren := (lacks "("%char).

(** A sequence pattern written as the list of its items. *)
Definition seq_list (items : list Re.regex) : Re.regex := fold_right Re.Seq Re.Eps items.

(** The items of [SdkHelper.create\(.+.class\)]. *)
Definition sdk_items : list Re.regex :=
  Eval vm_compute in
    (fix items (r : Re.regex) : list Re.regex :=
       match r with
       | Re.Seq a r' => a :: items r'
       | _ => []
       end) Convert.sdk_create_again.

End Progress.

(* ================================================================== *)
(** * Sample files *)
(* ================================================================== *)

Module Scenario.
Import Py.

(** A page object with one legacy locator and no import. *)
Definition login_page : string :=
  join NL [ "public class LoginPage {";
            "  @Locate(css = " ++ DQ ++ ".btn" ++ DQ ++ ")";
            "  private Button submit;";
            "}" ].

Definition login_page_rewritten : string :=
  join NL [ "public class LoginPage {";
            "  @Locate(using = Strategy.CSS, value = " ++ DQ ++ ".btn" ++ DQ ++ ")";
            "  private Button submit;";
            "}" ].

(** Accessor calls of both configuration managers, and an identifier
    that merely resembles one. *)
Definition config_user : string :=
  join NL [ "class T {";
            "  String a = ApplauseEnvironmentConfigurationManager.get().foo();";
            "  String b = EnvironmentConfigurationManager.get().bar();";
            "  int c = EnvironmentConfigurationManager_get;";
            "}" ].

Definition config_user_rewritten : string :=
  join NL [ "class T {";
            "  String a = ApplauseEnvironmentConfigurationManager.INSTANCE.get()().foo();";
            "  String b = EnvironmentConfigurationManager.INSTANCE.get()().bar();";
            "  int c = EnvironmentConfigurationManager.INSTANCE.get();";
            "}" ].

(** The same import twice, the second time with a space at the end of
    the line, and one factory call. *)
Definition home_page : string :=
  join NL [ "import java.util.List;";
            "import java.util.List; ";
            "class Home {";
            "  Home next = SdkHelper.create(Home.class);";
            "}" ].

Definition home_page_once : string :=
  join NL [ "import java.util.List;";
            "import com.applause.auto.pageobjectmodel.builder.PageObjectBuilder;";
            "import java.util.List;";
            "class Home {";
            "  Home next = PageObjectBuilder.withContext(SdkHelper.getDriverContext()).forBaseComponent(Home.class).initialize();";
            "}" ].

Definition home_page_twice : string :=
  join NL [ "import java.util.List;";
            "import com.applause.auto.pageobjectmodel.builder.PageObjectBuilder;";
            "class Home {";
            "  Home next = PageObjectBuilder.withContext(SdkHelper.getDriverContext()).forBaseComponent(Home.class).initialize();";
            "}" ].

(** A capability file with both spellings of one obsolete pair. *)
Definition caps_both : string :=
  join NL [ "{";
            "  " ++ Appium.pair_tight "isStrict" "true";
            "  " ++ Appium.pair_spaced "isStrict" "true";
            "  " ++ Appium.quoted "app" ++ ": " ++ Appium.quoted "myapp.apk";
            "}" ].

Definition caps_both_cleaned : string :=
  join NL [ "{";
            "  ";
            "  " ++ Appium.pair_spaced "isStrict" "true";
            "  " ++ Appium.quoted "app" ++ ": " ++ Appium.quoted "myapp.apk";
            "}" ].

(** The capability file of the specification's example. *)
Definition caps_tight : string :=
  join NL [ "{";
            "  " ++ Appium.pair_tight "isStrict" "true";
            "  " ++ Appium.quoted "app" ++ ": " ++ Appium.quoted "myapp.apk";
            "}" ].

Definition caps_tight_converted : string :=
  join NL [ "{";
            "  ";
            "  " ++ Appium.quoted "appium:app" ++ ": " ++ Appium.quoted "myapp.apk";
            "}" ].

(** A Java file whose [@Locate] has no locator, and one without any. *)
Definition bare_locate : string := "@Locate(foo)".
Definition plain_class : string := "class A {}".

(** [A.java] in the working directory. *)
Definition one_file : FS.node := FS.Dir [ ("A.java", FS.File bare_locate) ].

(** The same file one level down. *)
Definition one_file_below : FS.node :=
  FS.Dir [ ("proj", FS.Dir [ ("A.java", FS.File bare_locate) ]) ].

(** Two files called [X.java] in two directories. *)
Definition same_name : FS.node :=
  FS.Dir [ ("proj", FS.Dir [ ("a", FS.Dir [ ("X.java", FS.File bare_locate) ]);
                             ("b", FS.Dir [ ("X.java", FS.File plain_class) ]) ]) ].

(** The same two places, both files with a bare [@Locate]. *)
Definition same_name_both : FS.node :=
  FS.Dir [ ("proj", FS.Dir [ ("a", FS.Dir [ ("X.java", FS.File bare_locate) ]);
                             ("b", FS.Dir [ ("X.java", FS.File bare_locate) ]) ]) ].

(** A project whose only [pom.xml] lies in a subdirectory. *)
Definition pom_below : FS.node :=
  FS.Dir [ ("proj", FS.Dir [ ("Z.java", FS.File plain_class);
                             ("sub", FS.Dir [ ("pom.xml", FS.File "<source>17</source>") ]);
                             ("tail", FS.Dir [ ("Y.java", FS.File plain_class) ]) ]) ].

(** The same project, run from a directory that has a [pom.xml] of its own. *)
Definition pom_here_and_below : FS.node :=
  FS.Dir [ ("pom.xml", FS.File "<target>17</target>");
           ("proj", FS.Dir [ ("sub", FS.Dir [ ("pom.xml", FS.File "<source>17</source>") ]) ]) ].

(** A file that is neither Java nor a POM, next to the project. *)
Definition with_notes : FS.node :=
  FS.Dir [ ("notes.txt", FS.File "todo");
           ("proj", FS.Dir [ ("Z.java", FS.File plain_class);
                             ("sub", FS.Dir [ ("pom.xml", FS.File "<source>17</source>") ]) ]) ].

End Scenario.

(* ================================================================== *)
(** * What a pattern is sure to consume *)
(* ================================================================== *)

Module Pattern.
Import Re.

Definition cclass_eqb (c d : cclass) : bool :=
  match c, d with
  | CChar a, CChar b => Ascii.eqb a b
  | CAny x, CAny y => Bool.eqb x y
  | CSpace, CSpace => true
  | _, _ => false
  end.

(** The items of a literal text. *)
Fixpoint lits (p : string) : list cclass :=
  match p with
  | EmptyString => []
  | String a p' => CChar a :: lits p'
  end.

(** The pattern begins with the one-character items [items]. *)
Fixpoint has_prefix (items : list cclass) (r : regex) : bool :=
  match items with
  | [] => true
  | c :: items' =>
      match r with
      | Seq (Atom c') r' => cclass_eqb c c' && has_prefix items' r'
      | _ => false
      end
  end.

(** The items [items] stand in a row somewhere on the spine of the
    pattern, outside any star. *)
Fixpoint mentions (items : list cclass) (r : regex) : bool :=
  has_prefix items r ||
  match r with
  | Seq r1 r2 =>
      match r1 with
      | Group _ g => mentions items g
      | _ => false
      end || mentions items r2
  | Group _ g => mentions items g
  | _ => false
  end.

(** The text begins with characters that fit [items], one each. *)
Fixpoint fits (items : list cclass) (s : string) : bool :=
  match items with
  | [] => true
  | c :: items' =>
      match s with
      | EmptyString => false
      | String a s' => cls_match c a && fits items' s'
      end
  end.

(** A pattern made of the characters of [p] alone. *)
Definition literal (p : string) : regex := fold_right Seq Eps (map Atom (lits p)).

End Pattern.

(* ================================================================== *)
(** * Parts of the passes, named *)
(* ================================================================== *)

Module Passes.
Import Py.

(** The first loop of [replace_imports]: the substitutions of the table,
    in order. *)
Definition substitute_imports (table : list (string * string)) (contents : string) : string :=
  fold_left
    (fun c '(old_import, new_import) => Re.sub (Re.compile old_import) new_import c)
    table contents.

(** [not line[:6] == "import"] *)
Definition is_other (line : string) : bool := negb (Convert.is_import line).

(** A line without white space at its end. *)
Definition stripped (line : string) : Prop := rstrip line = line.

End Passes.

(* ================================================================== *)
(** * [scripts/appium-conversion.py]: files and the command line *)
(* ================================================================== *)

Module AppiumMain.
Import Py Main.

Fixpoint print_all (lines : list string) : io unit :=
  match lines with
  | [] => ret tt
  | line :: rest => print line ;;; print_all rest
  end.

(** The file is read, the passes print as they go, the file is written. *)
Definition update_appium_capabilities (filepath : string) : io unit :=
  contents <- open_read filepath ;;
  let (contents', printed) := Appium.update_appium_capabilities_text filepath contents in
  print_all printed ;;;
  open_write filepath contents'.

(** [for path in files: ...] *)
Fixpoint walk_files (root : string) (files : list string) : io unit :=
  match files with
  | [] => ret tt
  | path :: rest =>
      (if (last5 path =? ".json")%string
       then print ("Processing file: " ++ FS.path_join root path) ;;;
            update_appium_capabilities (FS.path_join root path)
       else ret tt) ;;;
      walk_files root rest
  end.

(** [for root, dirs, files in os.walk(filepath): ...] *)
Fixpoint walk_dirs (triples : list (string * list string * list string)) : io unit :=
  match triples with
  | [] => ret tt
  | (root, _, files) :: rest => walk_files root files ;;; walk_dirs rest
  end.

(** The body of [for filepath in sys.argv[1:]]. *)
Definition process_arg (filepath : string) : io unit :=
  f <- isfile filepath ;;
  if f && (last5 filepath =? ".json")%string
  then update_appium_capabilities filepath
  else
    d <- isdir filepath ;;
    if d
    then triples <- os_walk filepath ;; walk_dirs triples
    else print (filepath ++ " is not a valid json file or directory.").

Fixpoint process_args (argv : list string) : io unit :=
  match argv with
  | [] => ret tt
  | filepath :: rest => process_arg filepath ;;; process_args rest
  end.

Definition usage : io unit :=
  print "Usage: %s <path-to-directory>]+" ;;;
  print "Converts files from " ;;;
  print "   <path-to-driver>    :  relative or absolute path to a directory with .json or pom.xml files to convert".

(** The script, for the arguments [argv] (without the program name). *)
Definition main (argv : list string) : io unit :=
  process_args argv ;;;
  (if List.length argv =? 0 then usage else ret tt).

Definition run (argv : list string) (fs : FS.node) : result unit * world :=
  main argv (World fs []).

End AppiumMain.

(* ================================================================== *)
(** * The names in a tree *)
(* ================================================================== *)

Module Tree.

(** The tree with the contents of its files blanked: which files and
    directories there are, and where. *)
Fixpoint shape (n : FS.node) : FS.node :=
  match n with
  | FS.File _ => FS.File ""
  | FS.Dir es => FS.Dir (map (fun e => (fst e, shape (snd e))) es)
  end.

(** A command that leaves the names of the tree as they are, however it ends. *)
Definition keeps_names {A : Type} (c : Main.io A) : Prop :=
  forall w, shape (Main.files (snd (c w))) = shape (Main.files w).

(** A command that only prints: it ends normally and leaves the files alone. *)
Definition only_prints {A : Type} (c : Main.io A) (a : A) (lines : list string) : Prop :=
  forall w, c w = (Main.Done a, Main.World (Main.files w) (Main.stdout w ++ lines)).

(** An argument that the Java/POM tool takes for none of its three cases. *)
Definition unsuitable (fs : FS.node) (path : string) : Prop :=
  FS.isdir path fs = false
  /\ (FS.isfile path fs = true ->
      (Main.last5 path =? ".java")%string = false /\ (path =? "pom.xml")%string = false).

(** An argument that the capability tool takes for none of its two cases. *)
Definition unsuitable_json (fs : FS.node) (path : string) : Prop :=
  FS.isdir path fs = false
  /\ (FS.isfile path fs = true -> (Main.last5 path =? ".json")%string = false).

End Tree.

(* ================================================================== *)
(** * More sample files *)
(* ================================================================== *)

Module Sample.

(** A POM without dependencies or language level. *)
Definition bare_pom : string := "<project><name>demo</name></project>".

(** A capability file without any double quote. *)
Definition unquoted_caps : string := "{ app: myapp.apk }".

(** Two arguments that name no Java file, POM or directory. *)
Definition stray_args : list string := ["notes.txt"; "missing"].

(** The scopes of [deviceName] in [capabilities_to_update]. *)
Definition device_name_scopes : list string :=
  ["mobileweb_saucelabs"; "mobilenative_all"; "native_all"].

(** Two different import lines. *)
Definition two_imports : string :=
  Py.join Py.NL [ "import java.util.List;";
                  "import java.util.Map;";
                  "class Home {}" ].

(** Files saved with [CR LF] at the end of their lines. *)
Definition crlf_java : string :=
  "@Locate(foo)" ++ Py.CRLF ++ "class A {}" ++ Py.CRLF.

Definition lf_java : string :=
  "@Locate(foo)" ++ Py.NL ++ "class A {}" ++ Py.NL.

Definition crlf_java_file : FS.node := FS.Dir [ ("A.java", FS.File crlf_java) ].

Definition crlf_caps : string :=
  "{" ++ Py.CRLF ++ "  " ++ Appium.quoted "app" ++ ": " ++ Appium.quoted "myapp.apk"
  ++ Py.CRLF ++ "}".

Definition lf_caps : string :=
  "{" ++ Py.NL ++ "  " ++ Appium.quoted "app" ++ ": " ++ Appium.quoted "myapp.apk"
  ++ Py.NL ++ "}".

Definition crlf_caps_file : FS.node := FS.Dir [ ("caps.json", FS.File crlf_caps) ].

Definition crlf_pom : string := "<target>17</target>" ++ Py.CRLF.
Definition lf_pom : string := "<target>17</target>" ++ Py.NL.

Definition crlf_pom_file : FS.node := FS.Dir [ ("pom.xml", FS.File crlf_pom) ].









End Sample.

(* ================================================================== *)
(** * The rename loop over a table *)
(* ================================================================== *)

Module Table.
Import Py Appium.


(** The entries before and after position [i] of a table. *)
Definition before (i : nat) (table : list (string * list string)) := firstn i table.
Definition after (i : nat) (table : list (string * list string)) := skipn (S i) table.




End Table.

(* ================================================================== *)
(** * The primitives on small inputs *)
(* ================================================================== *)

Example ex_sub_dot_group :
  Re.sub (Re.compile "a.get()") "b.get()" "x = a.get();" = "x = b.get()();".
Proof. reflexivity. Qed.

Example ex_search :
  Re.search (Re.compile "C\(.+.class\)") "  C(A.class) C(B.class);" = Some (2, 23).
Proof. reflexivity. Qed.

Example ex_split : Py.split ".class" "a.classb.class" = ["a"; "b"; ""].
Proof. reflexivity. Qed.

Example ex_replace : Py.replace "aa" "b" "aaaxaa" = "baxb".
Proof. reflexivity. Qed.

Example ex_rstrip : Py.rstrip " a b  " = " a b".
Proof. reflexivity. Qed.

Example ex_all_patterns_parse :
  forallb (fun p => match Re.parse false p with Some _ => true | None => false end)
          (map fst Convert.imports ++ map fst Convert.locators
           ++ ["@Locate\(.*\)"; "getWebElement";
               "ApplauseEnvironmentConfigurationManager.get()";
               "EnvironmentConfigurationManager.get()";
               "SdkHelper.create\(.+.class\);"; "SdkHelper.create\(.+.class\)"])%list
  && forallb (fun p => match Re.parse true p with Some _ => true | None => false end)
             (map fst Convert.pom_substitutions) = true.
Proof. vm_compute. reflexivity. Qed.

(* ================================================================== *)
(** * The factory-call loop comes to an end *)
(* ================================================================== *)

Import Py Convert Progress.

(** ** Texts *)
Lemma append_nil_r (s : string) : s ++ "" = s.
Proof. induction s; simpl; congruence. Qed.

Lemma append_assoc (a b c : string) : (a ++ b) ++ c = a ++ (b ++ c).
Proof. induction a; simpl; congruence. Qed.

Lemma length_append (a b : string) : length (a ++ b) = length a + length b.
Proof. induction a; simpl; congruence. Qed.

Lemma take_drop (n : nat) (s : string) : Py.take n s ++ Py.drop n s = s.
Proof.
  revert s; induction n as [|n IH]; intros [|c s]; simpl; try reflexivity.
  now rewrite IH.
Qed.

Lemma drop_add (n m : nat) (s : string) : Py.drop (n + m) s = Py.drop m (Py.drop n s).
Proof.
  revert s; induction n as [|n IH]; intros s; simpl; [reflexivity|].
  destruct s as [|c s]; simpl; [now destruct m | apply IH].
Qed.

Lemma length_drop (n : nat) (s : string) : length (Py.drop n s) = length s - n.
Proof.
  revert s; induction n as [|n IH]; intros [|c s]; simpl; auto.
Qed.

Lemma take_app_exact (a b : string) (n : nat) :
  Py.take (length a + n) (a ++ b) = a ++ Py.take n b.
Proof. induction a; simpl; congruence. Qed.

Lemma drop_app_exact (a b : string) (n : nat) :
  Py.drop (length a + n) (a ++ b) = Py.drop n b.
Proof. induction a; simpl; congruence. Qed.

(** ** The measure *)
Lemma marks_app (a b : ascii) (x y : string) :
  marks a b (x ++ y) = marks a b x + marks (fst (last2 a b x)) (snd (last2 a b x)) y.
Proof.
  revert a b; induction x as [|c x IH]; intros a b; simpl; [reflexivity|].
  rewrite IH. lia.
Qed.

Lemma last2_app (a b : ascii) (x y : string) :
  last2 a b (x ++ y) = last2 (fst (last2 a b x)) (snd (last2 a b x)) y.
Proof.
  revert a b; induction x as [|c x IH]; intros a b; simpl; [reflexivity|]. apply IH.
Qed.

Lemma marks_no_paren (a b : ascii) (s : string) :
  no_paren s = true -> marks a b s = 0.
Proof.
  revert a b; induction s as [|c s IH]; intros a b H; simpl in *; [reflexivity|].
  apply andb_true_iff in H as [Hc Hs].
  destruct (Ascii.eqb c "("); [discriminate|]. simpl. now apply IH.
Qed.

(** After a character that is neither [t] nor [e], what came before does not matter,
    and such a state gives the least count. *)
Lemma marks_neutral_le (a b p q : ascii) (s : string) :
  Ascii.eqb q "e" = false -> Ascii.eqb q "t" = false ->
  marks p q s <= marks a b s.
Proof.
  intros He Ht. destruct s as [|c1 [|c2 s]]; simpl; rewrite ?He, ?Ht.
  - lia.
  - rewrite andb_false_r. simpl. lia.
  - rewrite !andb_false_r. simpl. lia.
Qed.

Lemma marks_neutral_eq (p q p' q' : ascii) (s : string) :
  Ascii.eqb q "e" = false -> Ascii.eqb q "t" = false ->
  Ascii.eqb q' "e" = false -> Ascii.eqb q' "t" = false ->
  marks p q s = marks p' q' s.
Proof.
  intros. apply Nat.le_antisymm; apply marks_neutral_le; assumption.
Qed.

Lemma marks_ge_weight (a b : ascii) (s : string) : weight s <= marks a b s.
Proof. apply marks_neutral_le; reflexivity. Qed.

Lemma marks_app_ge (a b : ascii) (x y : string) :
  marks a b x + weight y <= marks a b (x ++ y).
Proof. rewrite marks_app. pose proof (marks_ge_weight (fst (last2 a b x)) (snd (last2 a b x)) y). lia. Qed.

Lemma marks_line_break (a b : ascii) (x y : string) :
  marks a b (x ++ String Py.nl y) = marks a b x + weight y.
Proof.
  rewrite marks_app. simpl.
  f_equal.
  apply marks_neutral_eq; reflexivity.
Qed.

Lemma concat_cons (sep x : string) (ls : list string) :
  ls <> [] -> concat sep (x :: ls) = x ++ sep ++ concat sep ls.
Proof. destruct ls; [congruence | reflexivity]. Qed.

Lemma marks_join (a b : ascii) (x : string) (ls : list string) :
  marks a b (join NL (x :: ls)) = marks a b x + total_weight ls.
Proof.
  unfold join, total_weight. revert a b x; induction ls as [|y ls IH]; intros a b x.
  - simpl. lia.
  - rewrite concat_cons by discriminate.
    change (NL ++ concat NL (y :: ls)) with (String nl (concat NL (y :: ls))).
    rewrite marks_line_break. unfold weight at 1. rewrite IH. simpl. unfold weight. lia.
Qed.

Lemma weight_join (ls : list string) : weight (join NL ls) = total_weight ls.
Proof.
  destruct ls as [|x ls]; [reflexivity|].
  unfold weight at 1. rewrite marks_join. unfold total_weight. simpl. unfold weight. lia.
Qed.

Lemma prefix_char (a c : ascii) (s : string) :
  prefix (String a "") (String c s) = Ascii.eqb a c.
Proof.
  simpl. destruct (Ascii.ascii_dec a c) as [->|Hne].
  - rewrite Ascii.eqb_refl. now destruct s.
  - symmetry. now apply Ascii.eqb_neq.
Qed.

(** Splitting at newlines and joining again gives the text back. *)
Lemma join_split_from (s : string) :
  forall h t, split_from NL 0 s = (h, t) -> join NL (h :: t) = s.
Proof.
  unfold join.
  induction s as [|c s IH]; intros h t E.
  - simpl in E. now inversion E.
  - cbn [split_from] in E. unfold NL in E at 1. rewrite prefix_char in E.
    change (length NL - 1) with 0 in E.
    destruct (split_from NL 0 s) as [h' t'] eqn:E'.
    specialize (IH h' t' eq_refl).
    destruct (Ascii.eqb_spec nl c) as [<-|Hne]; simpl in E; injection E as <- <-.
    + rewrite concat_cons by discriminate. now rewrite IH.
    + destruct t' as [|y t].
      * simpl in *. now rewrite IH.
      * rewrite (concat_cons NL h' (y :: t)) in IH by discriminate.
        rewrite (concat_cons NL (String c h') (y :: t)) by discriminate.
        simpl. now rewrite <- IH.
Qed.

Lemma join_split (s : string) : join NL (split NL s) = s.
Proof.
  unfold split. destruct (split_from NL 0 s) as [h t] eqn:E.
  now apply join_split_from.
Qed.

Lemma rstrip_prefix (s : string) : exists w, s = rstrip s ++ w.
Proof.
  induction s as [|c s [w Hw]]; [now exists ""|].
  simpl. destruct (rstrip s) as [|d r] eqn:E.
  - destruct (is_space c).
    + now exists (String c s).
    + exists w. simpl in *. now rewrite <- Hw.
  - exists w. simpl in *. now rewrite <- Hw.
Qed.

Lemma weight_rstrip (s : string) : weight (rstrip s) <= weight s.
Proof.
  destruct (rstrip_prefix s) as [w Hw]. rewrite Hw at 2.
  unfold weight. rewrite marks_app. lia.
Qed.

Lemma scan_lines_weight (stmt : string) (lines : list string) :
  forall i existing last found,
    total_weight (fst (fst (scan_lines stmt i lines existing last found)))
    <= total_weight lines.
Proof.
  induction lines as [|line rest IH]; intros i existing last found; simpl; [lia|].
  unfold total_weight in *. simpl.
  destruct (set_mem line existing).
  - specialize (IH (S i) existing last found). lia.
  - destruct (is_import line).
    + match goal with |- context [scan_lines ?a ?b ?c ?d ?e ?f] =>
        specialize (IH b d e f); destruct (scan_lines a b c d e f) as [[o l] fo] end.
      simpl in *. pose proof (weight_rstrip line). lia.
    + match goal with |- context [scan_lines ?a ?b ?c ?d ?e ?f] =>
        specialize (IH b d e f); destruct (scan_lines a b c d e f) as [[o l] fo] end.
      simpl in *. pose proof (weight_rstrip line). lia.
Qed.

Lemma total_weight_insert (i : nat) (x : string) (ls : list string) :
  total_weight (list_insert i x ls) = weight x + total_weight ls.
Proof.
  unfold list_insert, total_weight.
  rewrite map_app, list_sum_app. simpl.
  rewrite <- (firstn_skipn i ls) at 3. rewrite map_app, list_sum_app. lia.
Qed.

Lemma add_import_weight (stmt contents : string) :
  weight stmt = 0 ->
  weight (add_import_if_not_present stmt contents) <= weight contents.
Proof.
  intros Hs. unfold add_import_if_not_present.
  pose proof (scan_lines_weight stmt (split NL contents) 0 [] 1 false) as H.
  destruct (scan_lines stmt 0 (split NL contents) [] 1 false) as [[out last] found].
  simpl in H.
  assert (Hc : weight contents = total_weight (split NL contents))
    by (now rewrite <- weight_join, join_split).
  rewrite Hc, weight_join.
  destruct found; [exact H|].
  rewrite total_weight_insert. lia.
Qed.

(** ** The matcher *)

Section Matcher.
Import Re.

(** Whatever the matcher returns was returned by its continuation, on a
    text that is not longer than the one it started from. *)
Lemma star_rounds_reaches {A : Type}
      (body : string -> caps -> (string -> caps -> option A) -> option A)
      (k : string -> caps -> option A) :
  (forall s cs k' x, body s cs k' = Some x ->
      exists s' cs', k' s' cs' = Some x /\ length s' <= length s) ->
  forall fuel s cs x, star_rounds body k fuel s cs = Some x ->
      exists s' cs', k s' cs' = Some x /\ length s' <= length s.
Proof.
  intros Hbody. induction fuel as [|fuel IH]; intros s cs x H; simpl in H.
  - eauto.
  - destruct (body s cs _) as [y|] eqn:E.
    + injection H as ->.
      apply Hbody in E as (s1 & cs1 & E & Hlen).
      destruct (length s1 <? length s) eqn:Hlt; [|discriminate].
      apply IH in E as (s' & cs' & E & Hlen').
      exists s', cs'. split; [assumption | lia].
    + eauto.
Qed.

Lemma rmatch_reaches {A : Type} (r : regex) :
  forall s cs (k : string -> caps -> option A) x,
    rmatch r s cs k = Some x ->
    exists s' cs', k s' cs' = Some x /\ length s' <= length s.
Proof.
  induction r as [| |c|r1 IH1 r2 IH2|r1 IH1|n r1 IH1]; intros s cs k x H; simpl in H.
  - discriminate.
  - eauto.
  - destruct s as [|a s]; [discriminate|].
    destruct (cls_match c a); [|discriminate].
    exists s, cs. split; [assumption | simpl; lia].
  - apply IH1 in H as (s1 & cs1 & H & Hlen1).
    apply IH2 in H as (s2 & cs2 & H & Hlen2).
    exists s2, cs2. split; [assumption | lia].
  - eapply star_rounds_reaches; eauto.
  - apply IH1 in H as (s1 & cs1 & H & Hlen1). eauto.
Qed.

(** A continuation that succeeds more often makes the matcher succeed
    more often. *)
Lemma star_rounds_mono {A B : Type}
      (bodyA : string -> caps -> (string -> caps -> option A) -> option A)
      (bodyB : string -> caps -> (string -> caps -> option B) -> option B)
      (k : string -> caps -> option A) (k' : string -> caps -> option B) :
  (forall s cs k1 k2,
      (forall s' cs', k1 s' cs' <> None -> k2 s' cs' <> None) ->
      bodyA s cs k1 <> None -> bodyB s cs k2 <> None) ->
  (forall s' cs', k s' cs' <> None -> k' s' cs' <> None) ->
  forall fuel s cs,
    star_rounds bodyA k fuel s cs <> None -> star_rounds bodyB k' fuel s cs <> None.
Proof.
  intros Hbody Hk. induction fuel as [|fuel IH]; intros s cs H; simpl in *.
  - auto.
  - set (KA := fun s1 cs1 => if length s1 <? length s
                             then star_rounds bodyA k fuel s1 cs1 else None) in *.
    set (KB := fun s1 cs1 => if length s1 <? length s
                             then star_rounds bodyB k' fuel s1 cs1 else None).
    destruct (bodyA s cs KA) as [y|] eqn:E.
    + assert (EB : bodyB s cs KB <> None).
      { apply (Hbody s cs KA KB); [|rewrite E; discriminate].
        intros s' cs'. unfold KA, KB. destruct (length s' <? length s); auto. }
      destruct (bodyB s cs KB); [discriminate | contradiction].
    + destruct (bodyB s cs KB); [discriminate | auto].
Qed.

Lemma rmatch_mono {A B : Type} (r : regex) :
  forall s cs (k : string -> caps -> option A) (k' : string -> caps -> option B),
    (forall s' cs', k s' cs' <> None -> k' s' cs' <> None) ->
    rmatch r s cs k <> None -> rmatch r s cs k' <> None.
Proof.
  induction r as [| |c|r1 IH1 r2 IH2|r1 IH1|n r1 IH1]; intros s cs k k' Hk H; simpl in *.
  - contradiction H; reflexivity.
  - auto.
  - destruct s as [|a s]; [contradiction H; reflexivity|].
    destruct (cls_match c a); [auto | contradiction H; reflexivity].
  - eapply IH1; [|exact H]. intros s' cs'. apply IH2. exact Hk.
  - eapply star_rounds_mono; [| exact Hk | exact H].
    intros s0 cs0 k1 k2. apply IH1.
  - eapply IH1; [|exact H]. intros s' cs'. apply Hk.
Qed.

Lemma rmatch_seq_list_app {A : Type} (l1 l2 : list regex) :
  forall s cs (k : string -> caps -> option A),
    rmatch (seq_list (l1 ++ l2)) s cs k <> None ->
    rmatch (seq_list l1) s cs (fun s1 cs1 => rmatch (seq_list l2) s1 cs1 k) <> None.
Proof.
  induction l1 as [|a l1 IH]; intros s cs k H; simpl in *.
  - assumption.
  - eapply rmatch_mono; [|exact H]. intros s' cs'. apply IH.
Qed.

Lemma match_at_prefix_pattern (l1 l2 : list regex) (s : string) :
  match_at (seq_list (l1 ++ l2)) s <> None -> match_at (seq_list l1) s <> None.
Proof.
  unfold match_at. intros H. apply rmatch_seq_list_app in H.
  eapply rmatch_mono; [|exact H]. intros; discriminate.
Qed.

Lemma search_from_mono (r1 r2 : regex) :
  (forall s, match_at r1 s <> None -> match_at r2 s <> None) ->
  forall s i j, search_from r1 i s <> None -> search_from r2 j s <> None.
Proof.
  intros Hm. induction s as [|c s IH]; intros i j H; simpl in *.
  - destruct (match_at r1 "") as [[n cs]|] eqn:E.
    + assert (E' : match_at r1 "" <> None) by (rewrite E; discriminate).
      apply Hm in E'. destruct (match_at r2 "") as [[n' cs']|]; [discriminate | contradiction E'; reflexivity].
    + contradiction H; reflexivity.
  - destruct (match_at r1 (String c s)) as [[n cs]|] eqn:E.
    + assert (E' : match_at r1 (String c s) <> None) by (rewrite E; discriminate).
      apply Hm in E'.
      destruct (match_at r2 (String c s)) as [[n' cs']|]; [discriminate | contradiction E'; reflexivity].
    + destruct (match_at r2 (String c s)) as [[n' cs']|]; [discriminate|].
      eapply IH; exact H.
Qed.

(** Where [re.search] found its match. *)
Lemma search_from_some (r : regex) :
  forall s i a b, search_from r i s = Some (a, b) ->
    exists k n cs, a = i + k /\ b = a + n /\ k <= length s /\
                   match_at r (drop k s) = Some (n, cs).
Proof.
  induction s as [|c s IH]; intros i a b H; simpl in H.
  - destruct (match_at r "") as [[n cs]|] eqn:E; [|discriminate].
    injection H as <- <-. exists 0, n, cs. simpl. repeat split; try lia. exact E.
  - destruct (match_at r (String c s)) as [[n cs]|] eqn:E.
    + injection H as <- <-. exists 0, n, cs. simpl. repeat split; try lia. exact E.
    + apply IH in H as (k & n & cs & -> & -> & Hk & Hm).
      exists (S k), n, cs. simpl. repeat split; try lia. exact Hm.
Qed.

Lemma rmatch_lit {A : Type} (a : ascii) (r : regex) (s : string) (cs : caps)
      (k : string -> caps -> option A) (x : A) :
  rmatch (Seq (Atom (CChar a)) r) s cs k = Some x ->
  exists s', s = String a s' /\ rmatch r s' cs k = Some x.
Proof.
  simpl. destruct s as [|c s]; [discriminate|].
  destruct (Ascii.eqb_spec a c) as [->|]; [|discriminate]. eauto.
Qed.

Lemma rmatch_dot {A : Type} (d : bool) (r : regex) (s : string) (cs : caps)
      (k : string -> caps -> option A) (x : A) :
  rmatch (Seq (Atom (CAny d)) r) s cs k = Some x ->
  exists c s', s = String c s' /\ rmatch r s' cs k = Some x.
Proof.
  simpl. destruct s as [|c s]; [discriminate|].
  destruct (d || negb (Ascii.eqb c nl)); [|discriminate]. eauto.
Qed.

End Matcher.

Lemma sdk_create_again_items : sdk_create_again = seq_list sdk_items.
Proof. reflexivity. Qed.

Lemma sdk_create_first_items :
sdk_create_first = seq_list (sdk_items ++ [Re.Atom (Re.CChar ";")]).
Proof. reflexivity. Qed.

Lemma first_match_is_again_match (s : string) :
Re.match_at sdk_create_first s <> None -> Re.match_at sdk_create_again s <> None.
Proof.
rewrite sdk_create_first_items, sdk_create_again_items.
apply match_at_prefix_pattern.
Qed.

Lemma search_again_none_first_none (s : string) :
Re.search sdk_create_again s = None -> Re.search sdk_create_first s = None.
Proof.
intros H. destruct (Re.search sdk_create_first s) eqn:E; [|reflexivity].
exfalso.
assert (E' : Re.search_from sdk_create_first 0 s <> None)
  by (unfold Re.search in E; rewrite E; discriminate).
apply (search_from_mono _ _ first_match_is_again_match s 0 0) in E'.
apply E'. exact H.
Qed.

(** Both patterns begin with [SdkHelper.create\(]: a match starts with
  these seventeen characters and contains them. *)
Lemma sdk_match_shape (r : Re.regex) (s : string) (n : nat) (cs : Re.caps) :
r = sdk_create_first \/ r = sdk_create_again ->
Re.match_at r s = Some (n, cs) ->
exists c rest, s = "SdkHelper" ++ String c ("create(" ++ rest)
               /\ 17 <= n /\ n <= length s.
Proof.
intros Hr H. unfold Re.match_at in H.
remember (length s) as L eqn:HL.
assert (Hpre : exists c rest r',
           s = "SdkHelper" ++ String c ("create(" ++ rest) /\
           Re.rmatch r' rest [] (fun rest0 cs0 => Some (L - length rest0, cs0)) = Some (n, cs)).
{ assert (Hi : r = seq_list (sdk_items ++ [Re.Atom (Re.CChar ";")]) \/ r = seq_list sdk_items)
    by (rewrite <- sdk_create_first_items, <- sdk_create_again_items; exact Hr).
  clear Hr HL.
  destruct Hi as [Hi | Hi]; rewrite Hi in H; clear Hi;
    unfold sdk_items, seq_list in H; cbn [fold_right app] in H;
    repeat (apply rmatch_lit in H as (? & -> & H));
    apply rmatch_dot in H as (c & ? & -> & H);
    repeat (apply rmatch_lit in H as (? & -> & H));
    eexists c, _, _; (split; [reflexivity | exact H]). }
destruct Hpre as (c & rest & r' & -> & H').
apply rmatch_reaches in H' as (s' & cs' & Hk & Hlen).
injection Hk as Hn _. clear H.
exists c, rest. split; [reflexivity|].
simpl in HL. simpl. lia.
Qed.

(** ** One round, and the loop *)

(** The pieces of a split at one character do not hold it. *)
Lemma split_char_pieces (d : ascii) (s : string) :
  forall h t, split_from (String d "") 0 s = (h, t) ->
    lacks d h = true /\ Forall (fun x => lacks d x = true) t.
Proof.
  induction s as [|c s IH]; intros h t E.
  - injection E as <- <-. auto.
  - cbn [split_from] in E. rewrite prefix_char in E.
    change (length (String d "") - 1) with 0 in E.
    destruct (split_from (String d "") 0 s) as [h' t'] eqn:E'.
    destruct (IH h' t' eq_refl) as [Hh Ht].
    destruct (Ascii.eqb_spec d c) as [<-|Hne]; injection E as <- <-.
    + split; [reflexivity | constructor; assumption].
    + split; [|assumption]. simpl. rewrite Hh.
      rewrite Ascii.eqb_sym. apply Ascii.eqb_neq in Hne. now rewrite Hne.
Qed.

Lemma split_head_no_paren (sep s : string) :
  no_paren s = true ->
  forall skip h t, split_from sep skip s = (h, t) -> no_paren h = true.
Proof.
  induction s as [|c s IH]; intros Hs skip h t E.
  - injection E as <- <-. reflexivity.
  - simpl in Hs. apply andb_true_iff in Hs as [Hc Hs].
    cbn [split_from] in E. destruct skip as [|skip].
    + destruct (prefix sep (String c s)).
      * destruct (split_from sep (length sep - 1) s). injection E as <- <-. reflexivity.
      * destruct (split_from sep 0 s) as [h' t'] eqn:E'. injection E as <- <-.
        simpl. rewrite Hc. eapply IH; eauto.
    + eapply IH; eauto.
Qed.

Lemma class_name_no_paren (group : string) :
  no_paren (nth 0 (split ".class" (nth 1 (split "(" group) "")) "") = true.
Proof.
  assert (H1 : no_paren (nth 1 (split "(" group) "") = true).
  { unfold split. destruct (split_from "(" 0 group) as [h t] eqn:E.
    apply (split_char_pieces "(") in E as [_ Ht].
    destruct t as [|x t]; [reflexivity|]. simpl. now inversion Ht. }
  unfold split at 1.
  destruct (split_from ".class" 0 _) as [h t] eqn:E.
  simpl. eapply split_head_no_paren; eauto.
Qed.

Lemma marks_call_prefix (a b c : ascii) :
  marks a b ("SdkHelper" ++ String c "create(") = 1.
Proof. simpl. destruct (Ascii.eqb c "("); reflexivity. Qed.

Lemma marks_builder (a b : ascii) (cn post : string) :
  no_paren cn = true ->
  marks a b (builder_head ++ cn ++ builder_tail ++ post) = weight post.
Proof.
  intros Hcn.
  rewrite marks_app.
  assert (H1 : marks a b builder_head = 0) by reflexivity.
  assert (S1 : last2 a b builder_head = ("t"%char, "("%char)) by reflexivity.
  rewrite H1, S1. cbn [fst snd].
  rewrite marks_app, (marks_no_paren _ _ cn Hcn).
  destruct (last2 "t" "(" cn) as [p q]. cbn [fst snd].
  rewrite marks_app.
  assert (H2 : marks p q builder_tail = 0) by reflexivity.
  assert (S2 : last2 p q builder_tail = (")"%char, ";"%char)) by reflexivity.
  rewrite H2, S2. cbn [fst snd]. simpl.
  apply marks_neutral_eq; reflexivity.
Qed.

(** One round of the loop removes a [te(] from the text. *)
Lemma sdk_round_weight (r : Re.regex) (contents : string) (start stop : nat) :
  r = sdk_create_first \/ r = sdk_create_again ->
  Re.search r contents = Some (start, stop) ->
  weight (sdk_round contents (start, stop)) < weight contents.
Proof.
  intros Hr H. unfold Re.search in H.
  apply search_from_some in H as (k & n & cs & -> & -> & Hk & Hm).
  apply (sdk_match_shape r _ _ _ Hr) in Hm as (c & rest & Hd & Hn17 & Hn).
  simpl plus.
  unfold sdk_round.
  eapply Nat.le_lt_trans; [apply add_import_weight; reflexivity|].
  unfold slice. replace (k + n - k) with n by lia.
  rewrite drop_add, Hd.
  set (P := "SdkHelper" ++ String c "create(").
  assert (HP : "SdkHelper" ++ String c ("create(" ++ rest) = P ++ rest) by reflexivity.
  rewrite HP in *.
  assert (HlP : length P = 17) by reflexivity.
  replace n with (length P + (n - 17)) by lia.
  rewrite take_app_exact, drop_app_exact.
  set (cn := nth 0 (split ".class" (nth 1 (split "(" (P ++ take (n - 17) rest)) "")) "").
  assert (Hcn : no_paren cn = true) by apply class_name_no_paren.
  rewrite <- (take_drop k contents) at 2. rewrite Hd.
  set (pre := take k contents). set (post := drop (n - 17) rest).
  change (weight (pre ++ builder_head ++ cn ++ builder_tail ++ post)
          < weight (pre ++ P ++ rest)).
  unfold weight at 1 2.
  rewrite (marks_app nl nl pre (P ++ rest)).
  rewrite (marks_app nl nl pre (builder_head ++ cn ++ builder_tail ++ post)).
  destruct (last2 nl nl pre) as [a b]. cbn [fst snd].
  rewrite marks_builder by assumption.
  rewrite (marks_app a b P rest). unfold P at 1. rewrite marks_call_prefix.
  rewrite <- (take_drop (n - 17) rest) at 1. fold post.
  pose proof (marks_app_ge (fst (last2 a b P)) (snd (last2 a b P))
                           (take (n - 17) rest) post).
  lia.
Qed.

Lemma sdk_loop_terminates (n : nat) :
  forall contents result,
    weight contents <= n ->
    (result = Re.search sdk_create_first contents \/
     result = Re.search sdk_create_again contents) ->
    exists out, sdk_loop n result contents = Some out /\
      (result = None /\ out = contents \/ Re.search sdk_create_again out = None).
Proof.
  induction n as [|n IH]; intros contents result Hw Hres.
  - destruct result as [[start stop]|].
    + exfalso.
      assert (weight (sdk_round contents (start, stop)) < weight contents).
      { destruct Hres as [Hres|Hres];
          eapply sdk_round_weight; [left| |right|]; try reflexivity; now symmetry. }
      lia.
    + exists contents. simpl. auto.
  - destruct result as [[start stop]|].
    + assert (Hlt : weight (sdk_round contents (start, stop)) < weight contents).
      { destruct Hres as [Hres|Hres];
          eapply sdk_round_weight; [left| |right|]; try reflexivity; now symmetry. }
      simpl.
      destruct (IH (sdk_round contents (start, stop))
                   (Re.search sdk_create_again (sdk_round contents (start, stop))))
        as (out & Hout & Hend); [lia | now right |].
      exists out. split; [exact Hout|]. right.
      destruct Hend as [[Hnone ->] | Hend]; assumption.
    + exists contents. simpl. auto.
Qed.

Lemma sdk_loop_more_fuel (n m : nat) :
  forall result contents out,
    sdk_loop n result contents = Some out -> n <= m ->
    sdk_loop m result contents = Some out.
Proof.
  revert m. induction n as [|n IH]; intros m result contents out H Hnm.
  - destruct result; [discriminate|]. destruct m; exact H.
  - destruct result as [p|].
    + destruct m as [|m]; [lia|]. simpl in *. apply IH; [exact H | lia].
    + destruct m; exact H.
Qed.

(** C10.  For every text the loop of [remove_sdk_helper_create] comes to
    an end: some budget of rounds lets it return, and the text returned
    has no match of the pattern searched before the loop; when that
    first search found a match, so that the loop ran, it has no match of
    the pattern searched at the end of every round either.  The number of
    [te(] in the text is a bound on the rounds: each round replaces a
    match, which holds [create(], by text without [te(]. *)
Theorem remove_sdk_helper_create_terminates (contents : string) :
  exists fuel out,
    remove_sdk_helper_create fuel contents = Some out /\
    Re.search sdk_create_first out = None /\
    (Re.search sdk_create_first contents <> None ->
     Re.search sdk_create_again out = None).
Proof.
  destruct (sdk_loop_terminates (weight contents) contents
              (Re.search sdk_create_first contents) (le_n _) (or_introl eq_refl))
    as (out & Hout & Hend).
  exists (weight contents), out. split; [exact Hout|].
  destruct Hend as [[Hnone ->] | Hend].
  - split; [exact Hnone | intros H; contradiction].
  - split; [now apply search_again_none_first_none | intros _; exact Hend].
Qed.

(* ================================================================== *)
(** * The capability rename *)
(* ================================================================== *)

Import Appium.


Lemma substring_prefix_length (old s : string) :
  prefix old s = true <-> substring 0 (length old) s = old.
Proof. apply prefix_correct. Qed.


Lemma replace_nonempty (old new : string) :
  old <> "" -> replace old new = replace_scan old new 0.
Proof. destruct old; [contradiction | reflexivity]. Qed.

Lemma quoted_nonempty (s : string) : quoted s <> "".
Proof. unfold quoted. discriminate. Qed.


(** Replacing by a longer text makes a text that holds [old] longer. *)
Lemma replace_scan_length_ge (old new : string) :
  1 <= length old -> length old <= length new ->
  forall s k, length s <= length (replace_scan old new k s) + k.
Proof.
  intros H1 H2. induction s as [|c s IH]; intros k; [simpl; lia|].
  cbn [replace_scan]. destruct k as [|k].
  - destruct (prefix old (String c s)).
    + rewrite length_append. specialize (IH (length old - 1)). simpl. lia.
    + simpl. specialize (IH 0). lia.
  - specialize (IH k). simpl. lia.
Qed.


Lemma length_quoted (s : string) : length (quoted s) = length s + 2.
Proof. unfold quoted. rewrite !length_append. simpl. lia. Qed.





(* ================================================================== *)
(** * What the import passes do guarantee *)
(* ================================================================== *)

(** ** The deduplication of [replace_imports] *)

Lemma set_mem_add (x y : string) (s : str_set) :
  set_mem x (set_add y s) = (x =? y)%string || set_mem x s.
Proof.
  unfold set_add. destruct (set_mem y s) eqn:E.
  - destruct (String.eqb_spec x y) as [->|]; [now rewrite E | reflexivity].
  - reflexivity.
Qed.

(** A line kept by the loop was not in the set, and comes from the input. *)
Lemma dedup_imports_fresh (lines : list string) :
  forall existing x, In x (dedup_imports lines existing) ->
    set_mem x existing = false /\ In x lines.
Proof.
  induction lines as [|line rest IH]; intros existing x Hx; simpl in Hx; [contradiction|].
  destruct (set_mem line existing) eqn:Em.
  - apply IH in Hx as [H1 H2]. split; [assumption | now right].
  - destruct (is_import line).
    + destruct Hx as [<-|Hx]; [split; [assumption | now left]|].
      apply IH in Hx as [H1 H2]. rewrite set_mem_add in H1.
      apply orb_false_iff in H1 as [_ H1]. split; [assumption | now right].
    + destruct Hx as [<-|Hx]; [split; [assumption | now left]|].
      apply IH in Hx as [H1 H2]. split; [assumption | now right].
Qed.

Lemma dedup_imports_nodup (lines : list string) :
  forall existing, NoDup (filter is_import (dedup_imports lines existing)).
Proof.
  induction lines as [|line rest IH]; intros existing; simpl; [constructor|].
  destruct (set_mem line existing) eqn:Em; [apply IH|].
  destruct (is_import line) eqn:Ei; simpl; rewrite Ei; [|apply IH].
  constructor; [|apply IH].
  intros Hin. apply filter_In in Hin as [Hin _].
  apply dedup_imports_fresh in Hin as [Hin _].
  rewrite set_mem_add, String.eqb_refl in Hin. discriminate.
Qed.

(** Lines that are not imports all stay, when the set holds imports only. *)
Lemma dedup_imports_keeps_others (lines : list string) :
  forall existing,
    (forall x, set_mem x existing = true -> is_import x = true) ->
    filter (fun l => negb (is_import l)) (dedup_imports lines existing)
    = filter (fun l => negb (is_import l)) lines.
Proof.
  induction lines as [|line rest IH]; intros existing Hex; simpl; [reflexivity|].
  destruct (set_mem line existing) eqn:Em.
  - rewrite (Hex line Em). simpl. apply IH, Hex.
  - destruct (is_import line) eqn:Ei; simpl; rewrite Ei; simpl.
    + apply IH. intros x Hx. rewrite set_mem_add in Hx.
      apply orb_true_iff in Hx as [Hx|Hx]; [|now apply Hex].
      apply String.eqb_eq in Hx. now subst.
    + f_equal. apply IH, Hex.
Qed.

(** Joining lines and splitting again gives the lines back. *)
Lemma split_join_lines (t : list string) :
  forall h, lacks nl h = true -> Forall (fun x => lacks nl x = true) t ->
    split_from NL 0 (join NL (h :: t)) = (h, t).
Proof.
  unfold join.
  induction t as [|y t IH]; intros h Hh Ht.
  - simpl. clear Ht. induction h as [|c h IHh]; [reflexivity|].
    simpl in Hh. apply andb_true_iff in Hh as [Hc Hh].
    cbn [split_from]. unfold NL at 1. rewrite prefix_char.
    rewrite Ascii.eqb_sym. apply negb_true_iff in Hc. rewrite Hc.
    fold NL. now rewrite (IHh Hh).
  - rewrite concat_cons by discriminate.
    inversion Ht as [|y' t' Hy Ht']; subst.
    specialize (IH y Hy Ht').
    remember (concat NL (y :: t)) as body eqn:Hbody. clear Hbody.
    induction h as [|c h IHh].
    + change ("" ++ NL ++ body) with (String nl body).
      cbn [split_from]. unfold NL at 1. rewrite prefix_char, Ascii.eqb_refl.
      change (length NL - 1) with 0. now rewrite IH.
    + simpl in Hh. apply andb_true_iff in Hh as [Hc Hh].
      change (String c h ++ NL ++ body) with (String c (h ++ NL ++ body)).
      cbn [split_from]. unfold NL at 1. rewrite prefix_char.
      rewrite Ascii.eqb_sym. apply negb_true_iff in Hc. rewrite Hc.
      now rewrite (IHh Hh).
Qed.

Lemma split_lines_lack_nl (s : string) :
  Forall (fun x => lacks nl x = true) (split NL s).
Proof.
  unfold split. destruct (split_from NL 0 s) as [h t] eqn:E.
  apply (split_char_pieces nl) in E as [Hh Ht]. now constructor.
Qed.

(** X1.  After [replace_imports], whatever the table of substitutions,
    no two import lines of the text are equal. *)
Theorem replace_imports_no_duplicate_import (table : list (string * string)) (contents : string) :
  NoDup (filter is_import (split NL (replace_imports_with table contents))).
Proof.
  unfold replace_imports_with.
  set (lines := split NL (fold_left _ table contents)).
  assert (Hl : Forall (fun x => lacks nl x = true) lines) by apply split_lines_lack_nl.
  assert (Hout : Forall (fun x => lacks nl x = true) (dedup_imports lines [])).
  { apply Forall_forall. intros x Hx. apply dedup_imports_fresh in Hx as [_ Hx].
    rewrite Forall_forall in Hl. now apply Hl. }
  pose proof (dedup_imports_nodup lines []) as Hnd.
  destruct (dedup_imports lines []) as [|h t]; [vm_compute; constructor|].
  inversion Hout as [|h' t' Hh Ht]; subst.
  unfold split. rewrite (split_join_lines t h Hh Ht). exact Hnd.
Qed.

(** ** Texts without a backslash *)

Lemma prefix_lacks (d : ascii) (p s : string) :
  prefix p s = true -> lacks d s = true -> lacks d p = true.
Proof.
  revert s; induction p as [|a p IH]; intros s Hp Hs; [reflexivity|].
  destruct s as [|c s]; [discriminate|].
  simpl in Hp. destruct (Ascii.ascii_dec a c) as [->|]; [|discriminate].
  simpl in *. apply andb_true_iff in Hs as [Hc Hs]. rewrite Hc. simpl. eapply IH; eauto.
Qed.

Lemma contains_lacks (d : ascii) (p s : string) :
  contains p s = true -> lacks d s = true -> lacks d p = true.
Proof.
  induction s as [|c s IH]; intros Hc Hs.
  - cbn [contains] in Hc. rewrite orb_false_r in Hc. exact (prefix_lacks d p "" Hc Hs).
  - cbn [contains] in Hc. apply orb_true_iff in Hc as [Hc|Hc].
    + exact (prefix_lacks d p (String c s) Hc Hs).
    + apply IH; [assumption|]. simpl in Hs. now apply andb_true_iff in Hs as [_ Hs].
Qed.

(** X8.  The first loop of [fix_locators] finds nothing in a text without a
    backslash: no import is added, only the substitutions are made. *)
Theorem fix_locators_without_backslash (contents : string) :
  lacks "\" contents = true ->
  fix_locators contents
  = fold_left
      (fun c '(old_style_locator, new_style_locator) =>
         Re.sub (Re.compile old_style_locator) ("@Locate(" ++ new_style_locator) c)
      locators contents.
Proof.
  intros Hb. unfold fix_locators.
  assert (E : existsb (fun '(old_style_locator, _) => contains old_style_locator contents)
                      locators = false).
  { apply not_true_is_false. intros H. apply existsb_exists in H as ([old new] & Hin & Hc).
    apply (contains_lacks "\" _ _ Hc) in Hb.
    assert (Hall : forallb (fun p => negb (lacks "\" (fst p))) locators = true)
      by (vm_compute; reflexivity).
    rewrite forallb_forall in Hall. specialize (Hall _ Hin). simpl in Hall.
    rewrite Hb in Hall. discriminate. }
  rewrite E. reflexivity.
Qed.

(* ================================================================== *)
(** * The Java rewrite on the sample files *)
(* ================================================================== *)

(** C1.  Locator coverage asks that a file with a legacy locator ends up
    with no legacy spelling and with the [Strategy] import exactly once.
    On the page object of the specification's example the locator line is
    rewritten, but no import is added: [fix_locators] looks for the text
    of its patterns ([@Locate\(\s*css = ]) in the file, which a Java file
    does not contain, so [add_import_if_not_present] is not called.  The
    budget of rounds plays no part. *)
Theorem locator_rewritten_without_import (fuel : nat) :
  Convert.convert_java_text fuel Scenario.login_page
  = Some (Scenario.login_page_rewritten, [None])
  /\ Py.contains "@Locate(css = " Scenario.login_page = true
  /\ Py.contains Convert.strategy_import Scenario.login_page_rewritten = false
  /\ existsb (fun p => Py.contains (fst p) Scenario.login_page) Convert.locators = false.
Proof.
  destruct fuel; vm_compute; repeat split.
Qed.

(** C3.  The singleton-accessor rewrite should turn [X.get()] into
    [X.INSTANCE.get()] and leave the rest alone.  The patterns are read as
    regular expressions: [()] is an empty group and [.] any character, so
    the match stops before the call's parentheses, which are then written
    a second time, and [EnvironmentConfigurationManager_get] is rewritten
    as well. *)
Theorem config_rewrite_doubles_parentheses :
  Convert.check_for_config_usage
    (Convert.check_for_applause_config_usage Scenario.config_user)
  = Scenario.config_user_rewritten
  /\ Convert.check_for_applause_config_usage "ApplauseEnvironmentConfigurationManager.get()"
     = "ApplauseEnvironmentConfigurationManager.INSTANCE.get()()"
  /\ Convert.check_for_config_usage "EnvironmentConfigurationManager.get()"
     = "EnvironmentConfigurationManager.INSTANCE.get()()".
Proof.
  vm_compute; repeat split.
Qed.

(** C4.  Idempotence fails on a file that imports the same class twice,
    once with a space at the end of the line, and holds a factory call:
    the first run turns the two lines into equal ones (the membership
    test of [add_import_if_not_present] compares the line as read with
    the stripped lines it has stored), and the second run drops one of
    them. *)
Theorem java_rewrite_not_idempotent (fuel : nat) :
  Convert.java_rewrite (S fuel) Scenario.home_page = Some Scenario.home_page_once
  /\ Convert.java_rewrite (S fuel) Scenario.home_page_once = Some Scenario.home_page_twice
  /\ Scenario.home_page_once <> Scenario.home_page_twice.
Proof.
  destruct fuel; vm_compute; (repeat split); discriminate.
Qed.

(** C5.  On the same file the text written back holds the line
    [import java.util.List;] twice: the import lines of the output are
    not free of duplicates. *)
Theorem java_rewrite_repeats_an_import (fuel : nat) :
  Convert.java_rewrite (S fuel) Scenario.home_page = Some Scenario.home_page_once
  /\ filter Convert.is_import (Py.split Py.NL Scenario.home_page_once)
     = [ "import java.util.List;";
         "import com.applause.auto.pageobjectmodel.builder.PageObjectBuilder;";
         "import java.util.List;" ]
  /\ ~ NoDup (filter Convert.is_import (Py.split Py.NL Scenario.home_page_once)).
Proof.
  assert (E : filter Convert.is_import (Py.split Py.NL Scenario.home_page_once)
              = [ "import java.util.List;";
                  "import com.applause.auto.pageobjectmodel.builder.PageObjectBuilder;";
                  "import java.util.List;" ]) by (vm_compute; reflexivity).
  split; [destruct fuel; vm_compute; reflexivity|].
  split; [exact E|].
  rewrite E. intros H. inversion H as [|x l Hnotin _]. apply Hnotin.
  right; left; reflexivity.
Qed.

(* ================================================================== *)
(** * The capability rewrite on the sample files *)
(* ================================================================== *)

(** C7.  After the removal phase no spelling of an obsolete pair should
    be left.  The two spellings are tested by [if]/[elif]: when a file
    holds both, only ["isStrict": "true",] is removed and
    ["isStrict" : "true",] stays, also in the file written back.  With
    the first spelling alone the pair is removed and [app] renamed, as in
    the specification's example. *)
Theorem spaced_pair_survives_removal :
  Appium.remove_unused_options "caps.json" (Scenario.caps_both, [])
  = (Scenario.caps_both_cleaned,
     ["Removing unused option: isStrict with value: true from caps.json"])
  /\ Py.contains (Appium.pair_spaced "isStrict" "true") Scenario.caps_both_cleaned = true
  /\ Py.contains (Appium.pair_spaced "isStrict" "true")
       (fst (Appium.update_appium_capabilities_text "caps.json" Scenario.caps_both)) = true
  /\ fst (Appium.update_appium_capabilities_text "caps.json" Scenario.caps_tight)
     = Scenario.caps_tight_converted.
Proof.
  vm_compute; repeat split.
Qed.

(* ================================================================== *)
(** * The command line on the sample trees *)
(* ================================================================== *)

(** C2.  A file whose [@Locate] has no locator should be reported under
    a [<filename> warnings:] header however it was found.  Found by the
    walk it is; named on the command line it is converted and nothing is
    reported, since the list returned by [convert_java] is dropped there;
    and of two files [X.java] in two directories only the one converted
    last is remembered under the key [X.java]: when that one is clean
    nothing is reported, and when both deserve the warning it is printed
    once. *)
Theorem warnings_lost (fuel : nat) :
  Convert.check_for_sub_components Scenario.bare_locate = Some Convert.sub_component_warning
  /\ Main.stdout (snd (Main.run fuel ["proj"] Scenario.one_file_below))
     = [ "Converted proj/A.java"; "A.java warnings:";
         "  - " ++ Convert.sub_component_warning ]
  /\ Main.run fuel ["A.java"] Scenario.one_file
     = (Main.Done tt, Main.World Scenario.one_file ["Converted A.java"])
  /\ Main.run fuel ["proj"] Scenario.same_name
     = (Main.Done tt,
        Main.World Scenario.same_name ["Converted proj/a/X.java"; "Converted proj/b/X.java"])
  /\ Main.run fuel ["proj"] Scenario.same_name_both
     = (Main.Done tt,
        Main.World Scenario.same_name_both
          [ "Converted proj/a/X.java"; "Converted proj/b/X.java"; "X.java warnings:";
            "  - " ++ Convert.sub_component_warning ]).
Proof.
  destruct fuel; vm_compute; repeat split.
Qed.

(** C8.  Every [pom.xml] met by the walk should be converted where it
    lies.  [convert_pom] is called with the bare name [pom.xml]: run from
    a directory without such a file the [open] fails, the run stops there
    (no later file is converted, here [proj/tail/Y.java]) and [proj/sub/pom.xml] is
    unchanged; run from a directory with a [pom.xml] of its own, that
    file is converted in place of the one found. *)
Theorem walk_opens_pom_by_bare_name (fuel : nat) :
  Main.run fuel ["proj"] Scenario.pom_below
  = (Main.Raised "pom.xml", Main.World Scenario.pom_below ["Converted proj/Z.java"])
  /\ Main.run fuel ["proj"] Scenario.pom_here_and_below
     = (Main.Done tt,
        Main.World
          (FS.Dir [ ("pom.xml", FS.File "<target>21</target>");
                    ("proj", FS.Dir [ ("sub", FS.Dir [ ("pom.xml", FS.File "<source>17</source>") ]) ]) ])
          ["Converted pom.xml"]).
Proof.
  destruct fuel; vm_compute; repeat split.
Qed.

(** C9.  A path argument naming an existing [pom.xml] should be
    converted.  The test is [filepath == 'pom.xml'] on the whole
    argument: [proj/sub/pom.xml] gets the diagnostic for invalid input
    and is left as it was.  A file that is neither Java nor a POM gets
    the same line, and the arguments after it are still processed. *)
Theorem pom_path_argument_rejected (fuel : nat) :
  FS.isfile "proj/sub/pom.xml" Scenario.with_notes = true
  /\ Main.run fuel ["proj/sub/pom.xml"; "notes.txt"; "proj/Z.java"] Scenario.with_notes
     = (Main.Done tt,
        Main.World Scenario.with_notes
          [ "proj/sub/pom.xml is not a valid Java file, pom.xml, or directory.";
            "notes.txt is not a valid Java file, pom.xml, or directory.";
            "Converted proj/Z.java" ])
  /\ Main.run fuel ["pom.xml"] Scenario.pom_here_and_below
     = (Main.Done tt,
        Main.World
          (FS.Dir [ ("pom.xml", FS.File "<target>21</target>");
                    ("proj", FS.Dir [ ("sub", FS.Dir [ ("pom.xml", FS.File "<source>17</source>") ]) ]) ])
          ["Converted pom.xml"]).
Proof.
  destruct fuel; vm_compute; repeat split.
Qed.

(* ================================================================== *)
(** * Texts that a pattern cannot match *)
(* ================================================================== *)

Import Pattern.

Section Untouched.
Import Re.

(** What the continuation receives is an end piece of the text. *)
Lemma star_rounds_suffix {A : Type}
      (body : string -> caps -> (string -> caps -> option A) -> option A)
      (k : string -> caps -> option A) :
  (forall s cs k' x, body s cs k' = Some x ->
      exists pre s' cs', s = pre ++ s' /\ k' s' cs' = Some x) ->
  forall fuel s cs x, star_rounds body k fuel s cs = Some x ->
      exists pre s' cs', s = pre ++ s' /\ k s' cs' = Some x.
Proof.
  intros Hbody. induction fuel as [|fuel IH]; intros s cs x H; simpl in H.
  - exists "", s, cs. auto.
  - destruct (body s cs _) as [y|] eqn:E.
    + injection H as ->.
      apply Hbody in E as (pre & s1 & cs1 & -> & E).
      destruct (length s1 <? length (pre ++ s1)); [|discriminate].
      apply IH in E as (pre' & s' & cs' & -> & E).
      exists (pre ++ pre'), s', cs'. split; [now rewrite append_assoc | assumption].
    + exists "", s, cs. auto.
Qed.

Lemma rmatch_suffix {A : Type} (r : regex) :
  forall s cs (k : string -> caps -> option A) x,
    rmatch r s cs k = Some x ->
    exists pre s' cs', s = pre ++ s' /\ k s' cs' = Some x.
Proof.
  induction r as [| |c|r1 IH1 r2 IH2|r1 IH1|n r1 IH1]; intros s cs k x H; simpl in H.
  - discriminate.
  - exists "", s, cs. auto.
  - destruct s as [|a s]; [discriminate|].
    destruct (cls_match c a); [|discriminate].
    exists (String a ""), s, cs. auto.
  - apply IH1 in H as (pre1 & s1 & cs1 & -> & H).
    apply IH2 in H as (pre2 & s2 & cs2 & -> & H).
    exists (pre1 ++ pre2), s2, cs2. split; [now rewrite append_assoc | assumption].
  - eapply star_rounds_suffix; eauto.
  - apply IH1 in H as (pre1 & s1 & cs1 & -> & H). eauto.
Qed.

Lemma cclass_eqb_eq (c d : cclass) : cclass_eqb c d = true -> c = d.
Proof.
  destruct c as [a|x|], d as [b|y|]; simpl; try discriminate; intros H.
  - apply Ascii.eqb_eq in H. now subst.
  - apply Bool.eqb_prop in H. now subst.
  - reflexivity.
Qed.

Lemma has_prefix_fits {A : Type} (items : list cclass) :
  forall r s cs (k : string -> caps -> option A) x,
    has_prefix items r = true -> rmatch r s cs k = Some x -> fits items s = true.
Proof.
  induction items as [|c items IH]; intros r s cs k x Hp H; [reflexivity|].
  simpl in Hp. destruct r as [| |?|r1 r2|?|? ?]; try discriminate.
  destruct r1 as [| |c'|? ?|?|? ?]; try discriminate.
  apply andb_true_iff in Hp as [Hc Hp]. apply cclass_eqb_eq in Hc as <-.
  simpl in H. destruct s as [|a s]; [discriminate|].
  simpl. destruct (cls_match c a); [|discriminate].
  simpl. eapply IH; eauto.
Qed.

(** A match of a pattern that mentions [items] holds characters that fit them. *)
Lemma mentions_fits {A : Type} (items : list cclass) (r : regex) :
  forall s cs (k : string -> caps -> option A) x,
    mentions items r = true -> rmatch r s cs k = Some x ->
    exists pre s1, s = pre ++ s1 /\ fits items s1 = true.
Proof.
  induction r as [| |c|r1 IH1 r2 IH2|r1 IH1|n r1 IH1]; intros s cs k x Hm H;
    cbn [mentions] in Hm; apply orb_true_iff in Hm as [Hm|Hm];
    try (exists "", s; split; [reflexivity | eapply has_prefix_fits; eassumption]);
    try discriminate.
  - apply orb_true_iff in Hm as [Hm|Hm].
    + simpl in H. destruct r1 as [| |?|? ?|?|n g]; try discriminate.
      eapply IH1; [|exact H]. cbn [mentions]. rewrite Hm. apply orb_true_r.
    + simpl in H. apply rmatch_suffix in H as (pre1 & s1 & cs1 & -> & H).
      destruct (IH2 _ _ _ _ Hm H) as (pre2 & s2 & -> & Hf).
      exists (pre1 ++ pre2), s2. split; [now rewrite append_assoc | assumption].
  - simpl in H. eapply IH1; eauto.
Qed.

Lemma fits_lits_prefix (p s : string) : fits (lits p) s = true -> prefix p s = true.
Proof.
  revert s; induction p as [|a p IH]; intros s H; [now destruct s|].
  destruct s as [|c s]; [discriminate|]. simpl in H.
  apply andb_true_iff in H as [Hc H]. apply Ascii.eqb_eq in Hc as <-.
  simpl. destruct (Ascii.ascii_dec a a) as [_|Hne]; [now apply IH | contradiction].
Qed.

Lemma prefix_fits_lits (p s : string) : prefix p s = true -> fits (lits p) s = true.
Proof.
  revert s; induction p as [|a p IH]; intros s H; [reflexivity|].
  destruct s as [|c s]; [discriminate|]. simpl in H.
  destruct (Ascii.ascii_dec a c) as [<-|]; [|discriminate].
  simpl. rewrite Ascii.eqb_refl. now apply IH.
Qed.

Lemma contains_app_r (p pre s : string) :
  prefix p s = true -> contains p (pre ++ s) = true.
Proof.
  intros H. induction pre as [|c pre IH].
  - change ("" ++ s) with s. destruct s; cbn [contains]; rewrite H; reflexivity.
  - change (String c pre ++ s) with (String c (pre ++ s)). cbn [contains].
    rewrite IH. apply orb_true_r.
Qed.

(** A match of a pattern that mentions the text [p] holds [p]. *)
Lemma match_holds_literal (p : string) (r : regex) (s : string) :
  mentions (lits p) r = true -> match_at r s <> None -> contains p s = true.
Proof.
  intros Hm H. unfold match_at in H.
  destruct (rmatch r s [] _) as [x|] eqn:E; [|contradiction].
  apply (mentions_fits _ _ _ _ _ _ Hm) in E as (pre & s1 & -> & Hf).
  apply contains_app_r. now apply fits_lits_prefix.
Qed.

Lemma contains_tail (p : string) (c : ascii) (s : string) :
  contains p (String c s) = false -> contains p s = false.
Proof. cbn [contains]. intros H. now apply orb_false_iff in H as [_ H]. Qed.

(** [re.search] finds nothing in a text that lacks what the pattern mentions. *)
Lemma search_from_lacking (p : string) (r : regex) :
  mentions (lits p) r = true ->
  forall s i, contains p s = false -> search_from r i s = None.
Proof.
  intros Hm. induction s as [|c s IH]; intros i Hc; cbn [search_from].
  - destruct (match_at r "") as [[n cs]|] eqn:E; [|reflexivity].
    rewrite (match_holds_literal p r "" Hm) in Hc; [discriminate | rewrite E; discriminate].
  - destruct (match_at r (String c s)) as [[n cs]|] eqn:E.
    + rewrite (match_holds_literal p r _ Hm) in Hc; [discriminate | rewrite E; discriminate].
    + apply IH. eapply contains_tail; eauto.
Qed.

(** Where [re.search] finds nothing, [re.sub] changes nothing and
    [re.finditer] yields nothing. *)
Lemma sub_scan_no_match (r : regex) (tmpl : string) :
  forall s i, search_from r i s = None -> sub_scan r tmpl 0 s = s.
Proof.
  induction s as [|c s IH]; intros i H; cbn [search_from] in H; cbn [sub_scan].
  - destruct (match_at r "") as [[n cs]|]; [discriminate | reflexivity].
  - destruct (match_at r (String c s)) as [[n cs]|]; [discriminate|].
    f_equal. eapply IH; eauto.
Qed.

Lemma finditer_scan_no_match (r : regex) :
  forall s i, search_from r i s = None -> finditer_scan r 0 s = [].
Proof.
  induction s as [|c s IH]; intros i H; cbn [search_from] in H; cbn [finditer_scan].
  - destruct (match_at r "") as [[n cs]|]; [discriminate | reflexivity].
  - destruct (match_at r (String c s)) as [[n cs]|]; [discriminate|].
    eapply IH; eauto.
Qed.

Lemma finditer_scan_some_match (r : regex) :
  forall s i, search_from r i s <> None -> finditer_scan r 0 s <> [].
Proof.
  induction s as [|c s IH]; intros i H; cbn [search_from] in H; cbn [finditer_scan].
  - destruct (match_at r "") as [[n cs]|]; [discriminate | contradiction].
  - destruct (match_at r (String c s)) as [[n cs]|]; [discriminate|].
    eapply IH; eauto.
Qed.

Lemma sub_lacking (p : string) (r : regex) (tmpl s : string) :
  mentions (lits p) r = true -> contains p s = false -> sub r tmpl s = s.
Proof.
  intros Hm Hc. unfold sub. apply (sub_scan_no_match r tmpl s 0).
  now apply (search_from_lacking p).
Qed.

(** A pattern without any special character matches as a substring test. *)
Lemma rmatch_literal {A : Type} (p : string) :
  forall s cs (k : string -> caps -> option A),
    rmatch (literal p) s cs k = if prefix p s then k (drop (length p) s) cs else None.
Proof.
  unfold literal. induction p as [|a p IH]; intros s cs k.
  - now destruct s.
  - destruct s as [|c s]; [reflexivity|].
    cbn [lits map fold_right rmatch cls_match prefix length drop].
    destruct (Ascii.ascii_dec a c) as [<-|Hne].
    + rewrite Ascii.eqb_refl. apply IH.
    + apply Ascii.eqb_neq in Hne. now rewrite Hne.
Qed.

Lemma search_from_literal (p : string) :
  forall s i, search_from (literal p) i s <> None <-> contains p s = true.
Proof.
  induction s as [|c s IH]; intros i; cbn [search_from contains]; unfold match_at;
    rewrite rmatch_literal.
  - destruct (prefix p ""); simpl; split; (discriminate || congruence || auto).
  - destruct (prefix p (String c s)); simpl.
    + split; [reflexivity | discriminate].
    + apply IH.
Qed.

End Untouched.

(* ================================================================== *)
(** * The import passes *)
(* ================================================================== *)

Import Passes.

Lemma replace_imports_with_unfold (table : list (string * string)) (contents : string) :
  replace_imports_with table contents
  = join NL (dedup_imports (split NL (substitute_imports table contents)) []).
Proof. reflexivity. Qed.

Lemma lacks_app (d : ascii) (a b : string) :
  lacks d (a ++ b) = lacks d a && lacks d b.
Proof. induction a as [|c a IH]; simpl; [reflexivity|]. now rewrite IH, andb_assoc. Qed.

Lemma lacks_rstrip (d : ascii) (s : string) : lacks d s = true -> lacks d (rstrip s) = true.
Proof.
  intros H. destruct (rstrip_prefix s) as [w Hw]. rewrite Hw, lacks_app in H.
  now apply andb_true_iff in H as [H _].
Qed.

Lemma split_join_id (ls : list string) :
  ls <> [] -> Forall (fun x => lacks nl x = true) ls -> split NL (join NL ls) = ls.
Proof.
  intros Hne Hall. destruct ls as [|h t]; [contradiction|].
  inversion Hall as [|h' t' Hh Ht]; subst.
  unfold split. now rewrite (split_join_lines t h Hh Ht).
Qed.

Lemma split_nonempty (sep s : string) : split sep s <> [].
Proof. unfold split. destruct (split_from sep 0 s). discriminate. Qed.

Lemma dedup_imports_first (lines : list string) :
  lines <> [] -> dedup_imports lines [] <> [].
Proof.
  destruct lines as [|h t]; [contradiction|]. intros _. simpl.
  destruct (is_import h); discriminate.
Qed.

(** The lines of the text that [replace_imports] returns are those kept
    by its loop. *)
Lemma split_replace_imports (table : list (string * string)) (contents : string) :
  split NL (replace_imports_with table contents)
  = dedup_imports (split NL (substitute_imports table contents)) [].
Proof.
  rewrite replace_imports_with_unfold. apply split_join_id.
  - apply dedup_imports_first, split_nonempty.
  - apply Forall_forall. intros x Hx. apply dedup_imports_fresh in Hx as [_ Hx].
    pose proof (split_lines_lack_nl (substitute_imports table contents)) as Hl.
    rewrite Forall_forall in Hl. now apply Hl.
Qed.

(** X2.  Lines that are not imports are never dropped, duplicates included. *)
Theorem replace_imports_keeps_other_lines (table : list (string * string)) (contents : string) :
  filter is_other (split NL (replace_imports_with table contents))
  = filter is_other (split NL (substitute_imports table contents)).
Proof.
  rewrite split_replace_imports. apply dedup_imports_keeps_others.
  intros x Hx. discriminate.
Qed.

Lemma dedup_imports_distinct (lines : list string) :
  forall existing,
    NoDup (filter is_import lines) ->
    (forall x, In x lines -> set_mem x existing = false) ->
    dedup_imports lines existing = lines.
Proof.
  induction lines as [|line rest IH]; intros existing Hnd Hfresh; [reflexivity|].
  simpl. rewrite (Hfresh line (or_introl eq_refl)).
  simpl in Hnd. destruct (is_import line) eqn:Ei.
  - inversion Hnd as [|x l Hnotin Hnd']; subst. f_equal. apply IH; [assumption|].
    intros x Hx. rewrite set_mem_add. rewrite (Hfresh x (or_intror Hx)), orb_false_r.
    apply String.eqb_neq. intros ->.
    destruct (is_import line) eqn:Ei'; [|discriminate].
    apply Hnotin. apply filter_In. auto.
  - f_equal. apply IH; [assumption|]. intros x Hx. apply Hfresh. now right.
Qed.

(** X3.  When the import lines are pairwise different after the
    substitutions, the deduplication returns the text as it is. *)
Theorem replace_imports_distinct (table : list (string * string)) (contents : string) :
  NoDup (filter is_import (split NL (substitute_imports table contents))) ->
  replace_imports_with table contents = substitute_imports table contents.
Proof.
  intros Hnd. rewrite replace_imports_with_unfold.
  rewrite (dedup_imports_distinct _ [] Hnd) by reflexivity.
  apply join_split.
Qed.

Lemma replace_imports_distinct_witness :
  filter is_import (split NL (substitute_imports imports Sample.two_imports))
  = ["import java.util.List;"; "import java.util.Map;"]
  /\ NoDup (filter is_import (split NL (substitute_imports imports Sample.two_imports)))
  /\ replace_imports Sample.two_imports = substitute_imports imports Sample.two_imports.
Proof.
  assert (E : filter is_import (split NL (substitute_imports imports Sample.two_imports))
              = ["import java.util.List;"; "import java.util.Map;"])
    by (vm_compute; reflexivity).
  assert (H : NoDup (filter is_import
                       (split NL (substitute_imports imports Sample.two_imports)))).
  { rewrite E. constructor.
    - simpl. intros [H|[]]. discriminate H.
    - constructor; [simpl; tauto | constructor]. }
  split; [exact E|]. split; [exact H|].
  exact (replace_imports_distinct imports Sample.two_imports H).
Defined.

(** X4.  Deduplicating again changes nothing. *)
Theorem import_dedup_idempotent (table : list (string * string)) (contents : string) :
  replace_imports_with [] (replace_imports_with table contents)
  = replace_imports_with table contents.
Proof.
  rewrite (replace_imports_with_unfold []).
  change (substitute_imports [] (replace_imports_with table contents))
    with (replace_imports_with table contents).
  rewrite (dedup_imports_distinct _ []).
  - apply join_split.
  - rewrite split_replace_imports. apply dedup_imports_nodup.
  - reflexivity.
Qed.

(** ** [add_import_if_not_present] *)

Lemma rstrip_idempotent (s : string) : rstrip (rstrip s) = rstrip s.
Proof.
  induction s as [|c s IH]; [reflexivity|].
  simpl. destruct (rstrip s) as [|d r] eqn:E.
  - destruct (is_space c) eqn:Ec; [reflexivity|]. simpl. now rewrite Ec.
  - change (rstrip (String c (String d r)))
      with (match rstrip (String d r) with
            | EmptyString => if is_space c then "" else String c ""
            | String _ _ as r0 => String c r0
            end).
    rewrite IH. reflexivity.
Qed.

Lemma endswith_refl (s : string) : endswith s s = true.
Proof.
  unfold endswith. rewrite Nat.leb_refl, Nat.sub_diag. simpl.
  destruct s; apply String.eqb_refl.
Qed.

(** The lines that the loop appends are stripped lines of the text, and
    [contains_import] is set only for one of them. *)
Lemma scan_lines_out (stmt : string) (lines : list string) :
  forall i existing last found,
    let '(out, _, found') := scan_lines stmt i lines existing last found in
    Forall (fun l => exists x, In x lines /\ l = rstrip x) out
    /\ (found' = true -> found = true \/ exists l, In l out /\ endswith l stmt = true).
Proof.
  induction lines as [|line rest IH]; intros i existing last found; simpl.
  - split; [constructor | auto].
  - destruct (set_mem line existing).
    + specialize (IH (S i) existing last found).
      destruct (scan_lines stmt (S i) rest existing last found) as [[out l] f].
      destruct IH as [IH1 IH2]. split; [|exact IH2].
      eapply Forall_impl; [|exact IH1]. intros a (x & Hx & ->). eauto.
    + destruct (is_import line).
      * match goal with |- context [scan_lines ?a ?b ?c ?d ?e ?f] =>
          specialize (IH b d e f); destruct (scan_lines a b c d e f) as [[out l] f'] end.
        destruct IH as [IH1 IH2]. split.
        -- constructor; [eauto|]. eapply Forall_impl; [|exact IH1].
           intros a (x & Hx & ->). eauto.
        -- intros Hf. destruct (IH2 Hf) as [H|(l0 & Hl0 & He)].
           ++ destruct (endswith (rstrip line) stmt) eqn:Ee; [|now left].
              right. exists (rstrip line). split; [now left | assumption].
           ++ right. exists l0. split; [now right | assumption].
      * match goal with |- context [scan_lines ?a ?b ?c ?d ?e ?f] =>
          specialize (IH b d e f); destruct (scan_lines a b c d e f) as [[out l] f'] end.
        destruct IH as [IH1 IH2]. split.
        -- constructor; [eauto|]. eapply Forall_impl; [|exact IH1].
           intros a (x & Hx & ->). eauto.
        -- intros Hf. destruct (IH2 Hf) as [H|(l0 & Hl0 & He)]; [now left|].
           right. exists l0. split; [now right | assumption].
Qed.

Lemma scan_lines_first (stmt : string) (lines : list string) (last : nat) (found : bool) :
  lines <> [] -> fst (fst (scan_lines stmt 0 lines [] last found)) <> [].
Proof.
  destruct lines as [|h t]; [contradiction|]. intros _. simpl.
  destruct (is_import h);
    match goal with |- context [scan_lines ?a ?b ?c ?d ?e ?f] =>
      destruct (scan_lines a b c d e f) as [[out l] f'] end; discriminate.
Qed.

Lemma list_insert_in {A : Type} (i : nat) (x : A) (ls : list A) (y : A) :
  In y (list_insert i x ls) <-> y = x \/ In y ls.
Proof.
  unfold list_insert. rewrite in_app_iff. simpl.
  assert (Hls : In y ls <-> In y (firstn i ls) \/ In y (skipn i ls))
    by (rewrite <- in_app_iff, firstn_skipn; reflexivity).
  rewrite Hls. intuition congruence.
Qed.

(** The lines of the text that [add_import_if_not_present] returns. *)
Lemma add_import_lines (stmt contents : string) :
  lacks nl stmt = true ->
  exists out,
    split NL (add_import_if_not_present stmt contents) = out
    /\ (exists l, In l out /\ endswith l stmt = true)
    /\ Forall (fun l => l = stmt \/ exists x, In x (split NL contents) /\ l = rstrip x) out.
Proof.
  intros Hs. unfold add_import_if_not_present.
  pose proof (scan_lines_out stmt (split NL contents) 0 [] 1 false) as H.
  pose proof (scan_lines_first stmt (split NL contents) 1 false (split_nonempty _ _)) as Hne.
  destruct (scan_lines stmt 0 (split NL contents) [] 1 false) as [[out last] found].
  destruct H as [Hout Hfound]. simpl in Hne.
  assert (Hnl : Forall (fun l => lacks nl l = true) out).
  { eapply Forall_impl; [|exact Hout]. intros a (x & Hx & ->). apply lacks_rstrip.
    pose proof (split_lines_lack_nl contents) as Hl. rewrite Forall_forall in Hl. auto. }
  destruct found.
  - exists out. split; [now apply split_join_id|]. split.
    + destruct (Hfound eq_refl) as [H|H]; [discriminate | exact H].
    + eapply Forall_impl; [|exact Hout]. intros a Ha. now right.
  - exists (list_insert last stmt out). split; [|split].
    + apply split_join_id.
      * unfold list_insert. destruct (firstn last out); discriminate.
      * apply Forall_forall. intros y Hy. apply list_insert_in in Hy as [->|Hy]; [assumption|].
        rewrite Forall_forall in Hnl. auto.
    + exists stmt. split; [apply list_insert_in; now left | apply endswith_refl].
    + apply Forall_forall. intros y Hy. apply list_insert_in in Hy as [->|Hy]; [now left|].
      right. rewrite Forall_forall in Hout. auto.
Qed.

(** X5.  Afterwards the text has a line that ends with the statement. *)
Theorem add_import_present (stmt contents : string) :
  lacks nl stmt = true ->
  exists l, In l (split NL (add_import_if_not_present stmt contents))
            /\ endswith l stmt = true.
Proof.
  intros Hs. destruct (add_import_lines stmt contents Hs) as (out & -> & H & _). exact H.
Qed.

Lemma add_import_present_witness :
  lacks nl builder_import = true
  /\ exists l, In l (split NL (add_import_if_not_present builder_import Scenario.home_page))
               /\ endswith l builder_import = true.
Proof.
  split; [reflexivity | exact (add_import_present builder_import Scenario.home_page eq_refl)].
Defined.

(** X6.  Afterwards no line has white space at its end, when the
    statement has none. *)
Theorem add_import_strips_lines (stmt contents : string) :
  lacks nl stmt = true -> stripped stmt ->
  Forall stripped (split NL (add_import_if_not_present stmt contents)).
Proof.
  intros Hs Hst. destruct (add_import_lines stmt contents Hs) as (out & -> & _ & H).
  eapply Forall_impl; [|exact H]. intros a [->|(x & _ & ->)]; [exact Hst|].
  apply rstrip_idempotent.
Qed.

Lemma add_import_strips_lines_witness :
  lacks nl builder_import = true /\ stripped builder_import
  /\ Forall stripped (split NL (add_import_if_not_present builder_import Scenario.home_page)).
Proof.
  split; [reflexivity|]. split; [reflexivity|].
  exact (add_import_strips_lines builder_import Scenario.home_page eq_refl eq_refl).
Defined.

Lemma scan_lines_no_import (stmt : string) (lines : list string) :
  forall i last found,
    (forall l, In l lines -> is_import l = false) ->
    scan_lines stmt i lines [] last found = (map rstrip lines, last, found).
Proof.
  induction lines as [|line rest IH]; intros i last found H; [reflexivity|].
  simpl. rewrite (H line (or_introl eq_refl)).
  rewrite IH by (intros l Hl; apply H; now right). reflexivity.
Qed.

(** X7.  In a text without import lines the statement becomes the second
    line (the only line after the first, if there is but one), and every
    line is stripped. *)
Theorem add_import_without_imports (stmt contents : string) :
  (forall l, In l (split NL contents) -> is_import l = false) ->
  add_import_if_not_present stmt contents
  = join NL (list_insert 1 stmt (map rstrip (split NL contents))).
Proof.
  intros H. unfold add_import_if_not_present.
  now rewrite (scan_lines_no_import stmt _ 0 1 false H).
Qed.

Lemma add_import_without_imports_witness :
  (forall l, In l (split NL Scenario.login_page) -> is_import l = false)
  /\ add_import_if_not_present strategy_import Scenario.login_page
     = join NL (list_insert 1 strategy_import (map rstrip (split NL Scenario.login_page))).
Proof.
  assert (H : forall l, In l (split NL Scenario.login_page) -> is_import l = false).
  { intros l Hl. vm_compute in Hl.
    repeat (destruct Hl as [<-|Hl]; [reflexivity|]). contradiction. }
  split; [exact H | exact (add_import_without_imports strategy_import Scenario.login_page H)].
Defined.

(* ================================================================== *)
(** * Texts that the passes leave alone *)
(* ================================================================== *)

Lemma prefix_trans (p q s : string) :
  prefix p q = true -> prefix q s = true -> prefix p s = true.
Proof.
  revert q s; induction p as [|a p IH]; intros q s Hpq Hqs; [now destruct s|].
  destruct q as [|b q]; [discriminate|]. destruct s as [|c s]; [discriminate|].
  simpl in *. destruct (Ascii.ascii_dec a b) as [<-|]; [|discriminate].
  destruct (Ascii.ascii_dec a c) as [<-|]; [|discriminate]. eapply IH; eauto.
Qed.

(** A text that holds [q] holds every beginning of [q]. *)
Lemma contains_prefix (p q s : string) :
  prefix p q = true -> contains q s = true -> contains p s = true.
Proof.
  intros Hpq. induction s as [|c s IH]; cbn [contains]; intros H.
  - rewrite orb_false_r in *. eapply prefix_trans; eauto.
  - apply orb_true_iff in H as [H|H].
    + rewrite (prefix_trans p q _ Hpq H). reflexivity.
    + rewrite (IH H). apply orb_true_r.
Qed.

(** A table of substitutions whose patterns all mention [p] changes
    nothing in a text without [p]. *)
Lemma substitutions_lacking (p : string) (dotall : bool) (f : string -> string)
      (table : list (string * string)) (contents : string) :
  forallb (fun e => Pattern.mentions (Pattern.lits p) (Re.compile_with dotall (fst e))) table
  = true ->
  contains p contents = false ->
  fold_left (fun c '(old, new) => Re.sub (Re.compile_with dotall old) (f new) c) table contents
  = contents.
Proof.
  intros Hall Hc. induction table as [|[old new] table IH]; [reflexivity|].
  simpl in Hall. apply andb_true_iff in Hall as [Hm Hall].
  cbn [fold_left]. rewrite (sub_lacking p _ _ _ Hm Hc). now apply IH.
Qed.

Lemma substitute_imports_lacking (contents : string) :
  contains "applause" contents = false ->
  Passes.substitute_imports imports contents = contents.
Proof.
  intros Hc. unfold Passes.substitute_imports.
  apply (substitutions_lacking "applause" false (fun x => x)); [|exact Hc].
  vm_compute. reflexivity.
Qed.

Lemma fix_locators_lacking (contents : string) :
  contains "@Locate" contents = false -> fix_locators contents = contents.
Proof.
  intros Hc. unfold fix_locators.
  assert (E : existsb (fun '(old_style_locator, _) => contains old_style_locator contents)
                      locators = false).
  { apply not_true_is_false. intros H. apply existsb_exists in H as ([old new] & Hin & Ho).
    assert (Hall : forallb (fun e => prefix "@Locate" (fst e)) locators = true)
      by (vm_compute; reflexivity).
    rewrite forallb_forall in Hall. specialize (Hall _ Hin). simpl in Hall.
    rewrite (contains_prefix _ _ _ Hall Ho) in Hc. discriminate. }
  rewrite E.
  apply (substitutions_lacking "@Locate" false (fun x => "@Locate(" ++ x)); [|exact Hc].
  vm_compute. reflexivity.
Qed.

Lemma config_usage_lacking (contents : string) :
  contains "EnvironmentConfigurationManager" contents = false ->
  check_for_applause_config_usage contents = contents
  /\ check_for_config_usage contents = contents.
Proof.
  intros Hc. split.
  - unfold check_for_applause_config_usage.
    apply (sub_lacking "EnvironmentConfigurationManager"); [vm_compute; reflexivity | exact Hc].
  - unfold check_for_config_usage.
    apply (sub_lacking "EnvironmentConfigurationManager"); [vm_compute; reflexivity | exact Hc].
Qed.

Lemma sub_components_lacking (contents : string) :
  contains "@Locate(" contents = false -> check_for_sub_components contents = None.
Proof.
  intros Hc. unfold check_for_sub_components, Re.finditer.
  rewrite (finditer_scan_no_match _ contents 0); [reflexivity|].
  apply (search_from_lacking "@Locate("); [vm_compute; reflexivity | exact Hc].
Qed.

Lemma sdk_lacking (fuel : nat) (contents : string) :
  contains "SdkHelper" contents = false ->
  remove_sdk_helper_create fuel contents = Some contents.
Proof.
  intros Hc. unfold remove_sdk_helper_create, Re.search.
  rewrite (search_from_lacking "SdkHelper" sdk_create_first); [|vm_compute; reflexivity | exact Hc].
  now destruct fuel.
Qed.

(** X9.  A text without [@Locate] comes back from [fix_locators] as it was. *)
Theorem fix_locators_untouched (contents : string) :
  contains "@Locate" contents = false -> fix_locators contents = contents.
Proof. apply fix_locators_lacking. Qed.

Lemma fix_locators_untouched_witness :
  contains "@Locate" Scenario.plain_class = false
  /\ fix_locators Scenario.plain_class = Scenario.plain_class.
Proof.
  split; [reflexivity | exact (fix_locators_untouched Scenario.plain_class eq_refl)].
Defined.

(** X10.  A text that does not name [EnvironmentConfigurationManager] comes
    back from both accessor rewrites as it was. *)
Theorem config_usage_untouched (contents : string) :
  contains "EnvironmentConfigurationManager" contents = false ->
  check_for_applause_config_usage contents = contents
  /\ check_for_config_usage contents = contents.
Proof. apply config_usage_lacking. Qed.

Lemma config_usage_untouched_witness :
  contains "EnvironmentConfigurationManager" Scenario.login_page = false
  /\ check_for_applause_config_usage Scenario.login_page = Scenario.login_page
  /\ check_for_config_usage Scenario.login_page = Scenario.login_page.
Proof.
  split; [reflexivity | exact (config_usage_untouched Scenario.login_page eq_refl)].
Defined.

(** X11.  [check_for_get_web_element] warns exactly for the texts that
    hold [getWebElement]. *)
Theorem get_web_element_warning (contents : string) :
  check_for_get_web_element contents
  = if contains "getWebElement" contents
    then Some "getWebElement() method found. Please replace with getUnderlyingWebElement()"
    else None.
Proof.
  unfold check_for_get_web_element, Re.finditer.
  change (Re.compile "getWebElement") with (Pattern.literal "getWebElement").
  pose proof (search_from_literal "getWebElement" contents 0) as H.
  destruct (contains "getWebElement" contents).
  - pose proof (finditer_scan_some_match (Pattern.literal "getWebElement") contents 0
                  (proj2 H eq_refl)) as Hne.
    destruct (Re.finditer_scan _ 0 contents); [contradiction | reflexivity].
  - rewrite (finditer_scan_no_match _ contents 0); [reflexivity|].
    destruct (Re.search_from _ 0 contents) eqn:E; [|reflexivity].
    assert (Hd : Some p <> None) by discriminate. apply H in Hd. discriminate.
Qed.

(** X12.  A text without [@Locate(] gets no warning. *)
Theorem sub_components_silent (contents : string) :
  contains "@Locate(" contents = false -> check_for_sub_components contents = None.
Proof. apply sub_components_lacking. Qed.

Lemma sub_components_silent_witness :
  contains "@Locate(" Scenario.home_page = false
  /\ check_for_sub_components Scenario.home_page = None.
Proof.
  split; [reflexivity | exact (sub_components_silent Scenario.home_page eq_refl)].
Defined.

(** X13.  A text without [SdkHelper] comes back from
    [remove_sdk_helper_create] as it was, whatever the budget. *)
Theorem sdk_helper_untouched (fuel : nat) (contents : string) :
  contains "SdkHelper" contents = false ->
  remove_sdk_helper_create fuel contents = Some contents.
Proof. apply sdk_lacking. Qed.

Lemma sdk_helper_untouched_witness :
  contains "SdkHelper" Scenario.login_page = false
  /\ remove_sdk_helper_create 0 Scenario.login_page = Some Scenario.login_page.
Proof.
  split; [reflexivity | exact (sdk_helper_untouched 0 Scenario.login_page eq_refl)].
Defined.

Lemma sdk_loop_last_round (fuel : nat) :
  forall m contents out,
    sdk_loop fuel (Some m) contents = Some out ->
    exists c, out = add_import_if_not_present builder_import c.
Proof.
  induction fuel as [|fuel IH]; intros m contents out H; [discriminate|].
  simpl in H.
  destruct (Re.search sdk_create_again (sdk_round contents m)) as [m'|] eqn:E.
  - eapply IH; eauto.
  - destruct fuel; injection H as <-; destruct m as [start stop]; unfold sdk_round; eauto.
Qed.

(** X14.  When a factory call was found, the text returned has a line
    that ends with the import of [PageObjectBuilder], and no line of it
    has white space at its end. *)
Theorem sdk_helper_adds_import (fuel : nat) (contents out : string) :
  Re.search sdk_create_first contents <> None ->
  remove_sdk_helper_create fuel contents = Some out ->
  (exists l, In l (split NL out) /\ endswith l builder_import = true)
  /\ Forall Passes.stripped (split NL out).
Proof.
  intros Hs H. unfold remove_sdk_helper_create in H.
  destruct (Re.search sdk_create_first contents) as [m|]; [|contradiction].
  apply sdk_loop_last_round in H as (c & ->).
  destruct (add_import_lines builder_import c eq_refl) as (ls & -> & Hp & Hall).
  split; [exact Hp|].
  eapply Forall_impl; [|exact Hall]. intros a [->|(x & _ & ->)]; [reflexivity|].
  apply rstrip_idempotent.
Qed.

Lemma sdk_helper_adds_import_witness :
  Re.search sdk_create_first Scenario.home_page <> None
  /\ remove_sdk_helper_create 1 Scenario.home_page <> None
  /\ forall out, remove_sdk_helper_create 1 Scenario.home_page = Some out ->
       (exists l, In l (split NL out) /\ endswith l builder_import = true)
       /\ Forall Passes.stripped (split NL out).
Proof.
  assert (H : Re.search sdk_create_first Scenario.home_page <> None)
    by (vm_compute; discriminate).
  split; [exact H|]. split; [vm_compute; discriminate|].
  intros out Hout. exact (sdk_helper_adds_import 1 Scenario.home_page out H Hout).
Defined.

(** X16.  A Java file that uses none of the old API is written back as it
    was read, without a warning: no [applause], no [@Locate], no
    [EnvironmentConfigurationManager], no [SdkHelper], and no import line
    twice. *)
Theorem convert_java_untouched (fuel : nat) (contents : string) :
  contains "applause" contents = false ->
  contains "@Locate" contents = false ->
  contains "EnvironmentConfigurationManager" contents = false ->
  contains "SdkHelper" contents = false ->
  NoDup (filter is_import (split NL contents)) ->
  convert_java_text fuel contents = Some (contents, [None]).
Proof.
  intros Ha Hl He Hs Hnd. unfold convert_java_text, java_prefix_passes.
  assert (Hi : replace_imports_with imports contents = contents).
  { rewrite replace_imports_with_unfold, (substitute_imports_lacking _ Ha).
    rewrite (dedup_imports_distinct _ [] Hnd) by reflexivity. apply join_split. }
  rewrite Hi, (fix_locators_lacking _ Hl).
  destruct (config_usage_lacking _ He) as [H1 H2]. rewrite H1, H2.
  rewrite (sdk_lacking fuel _ Hs).
  rewrite sub_components_lacking; [reflexivity|].
  destruct (contains "@Locate(" contents) eqn:E; [|reflexivity].
  rewrite (contains_prefix "@Locate" "@Locate(" contents eq_refl E) in Hl. discriminate.
Qed.

Lemma convert_java_untouched_witness :
  contains "applause" Scenario.plain_class = false
  /\ contains "@Locate" Scenario.plain_class = false
  /\ contains "EnvironmentConfigurationManager" Scenario.plain_class = false
  /\ contains "SdkHelper" Scenario.plain_class = false
  /\ NoDup (filter is_import (split NL Scenario.plain_class))
  /\ convert_java_text 0 Scenario.plain_class = Some (Scenario.plain_class, [None]).
Proof.
  assert (Hnd : NoDup (filter is_import (split NL Scenario.plain_class)))
    by (vm_compute; constructor).
  repeat (split; [reflexivity|]). split; [exact Hnd|].
  exact (convert_java_untouched 0 Scenario.plain_class eq_refl eq_refl eq_refl eq_refl Hnd).
Defined.

(** X17.  A POM that has none of the texts the substitutions look for is
    written back as it was read. *)
Theorem convert_pom_untouched (new_pom : string) :
  contains "applause" new_pom = false ->
  contains "<source>17</source>" new_pom = false ->
  contains "<target>17</target>" new_pom = false ->
  contains "<dependency>" new_pom = false ->
  contains "<repository>" new_pom = false ->
  contains "</dependencies>" new_pom = false ->
  convert_pom_text new_pom = new_pom.
Proof.
  intros Ha Hs Ht Hd Hr He. unfold convert_pom_text, pom_substitutions.
  cbn [fold_left].
  rewrite (sub_lacking "applause" _ _ new_pom); [|vm_compute; reflexivity | exact Ha].
  rewrite (sub_lacking "<source>17</source>" _ _ new_pom); [|vm_compute; reflexivity | exact Hs].
  rewrite (sub_lacking "<target>17</target>" _ _ new_pom); [|vm_compute; reflexivity | exact Ht].
  rewrite (sub_lacking "<dependency>" _ _ new_pom); [|vm_compute; reflexivity | exact Hd].
  rewrite (sub_lacking "<repository>" _ _ new_pom); [|vm_compute; reflexivity | exact Hr].
  rewrite (sub_lacking "<dependency>" _ _ new_pom); [|vm_compute; reflexivity | exact Hd].
  apply (sub_lacking "</dependencies>"); [vm_compute; reflexivity | exact He].
Qed.

Lemma convert_pom_untouched_witness :
  contains "applause" Sample.bare_pom = false
  /\ contains "<source>17</source>" Sample.bare_pom = false
  /\ contains "<target>17</target>" Sample.bare_pom = false
  /\ contains "<dependency>" Sample.bare_pom = false
  /\ contains "<repository>" Sample.bare_pom = false
  /\ contains "</dependencies>" Sample.bare_pom = false
  /\ convert_pom_text Sample.bare_pom = Sample.bare_pom.
Proof.
  repeat (split; [reflexivity|]).
  exact (convert_pom_untouched Sample.bare_pom eq_refl eq_refl eq_refl eq_refl eq_refl eq_refl).
Defined.

(* ================================================================== *)
(** * The tools and the tree of files *)
(* ================================================================== *)

Import Tree.

Section Files.
Import FS.

Lemma lookup_set_entry (c : string) (x : node) (es : list (string * node)) :
  lookup c (set_entry c x es) = Some x.
Proof.
  induction es as [|[n y] es IH]; simpl.
  - now rewrite String.eqb_refl.
  - destruct (String.eqb_spec n c) as [->|Hne]; simpl.
    + now rewrite String.eqb_refl.
    + apply String.eqb_neq in Hne. now rewrite Hne.
Qed.

Lemma shape_set_entry (c : string) (x y : node) (es : list (string * node)) :
  lookup c es = Some y -> shape x = shape y ->
  map (fun e => (fst e, shape (snd e))) (set_entry c x es)
  = map (fun e => (fst e, shape (snd e))) es.
Proof.
  intros Hl Hs. induction es as [|[n z] es IH]; simpl in *; [discriminate|].
  destruct (String.eqb_spec n c) as [->|Hne]; simpl.
  - injection Hl as ->. now rewrite Hs.
  - f_equal. now apply IH.
Qed.

(** Writing to a file that exists: the file then holds the text, and the
    names in the tree are as before. *)
Lemma write_from_existing (data : string) (comps : list string) :
  forall n d0, resolve_from comps n = Some (File d0) ->
    exists n', write_from comps data n = Some n'
               /\ resolve_from comps n' = Some (File data)
               /\ shape n' = shape n.
Proof.
  induction comps as [|c cs IH]; intros n d0 H; simpl in H.
  - injection H as ->. exists (File data). auto.
  - destruct n as [d|es]; [discriminate|]. cbn [write_from].
    destruct (stays c) eqn:Es.
    + destruct (IH _ _ H) as (n' & Hw & Hr & Hs). exists n'. rewrite Hw.
      split; [reflexivity|]. split; [|exact Hs].
      destruct n' as [d'|es']; [discriminate Hs|]. cbn [resolve_from]. now rewrite Es.
    + destruct (lookup c es) as [x|] eqn:El; [|discriminate].
      destruct (IH _ _ H) as (x' & Hw & Hr & Hs). rewrite Hw.
      exists (Dir (set_entry c x' es)). split; [reflexivity|]. split.
      * cbn [resolve_from]. now rewrite Es, lookup_set_entry.
      * cbn [shape]. f_equal. eapply shape_set_entry; eauto.
Qed.

Lemma write_existing (path data : string) (fs : node) (d0 : string) :
  stored path fs = Some d0 ->
  exists fs', write path data fs = Some fs'
              /\ stored path fs' = Some data
              /\ shape fs' = shape fs.
Proof.
  unfold stored, write, resolve. destruct path as [|a path]; [discriminate|].
  destruct (resolve_from _ fs) as [[d|es]|] eqn:E; try discriminate. intros _.
  destruct (write_from_existing data _ _ _ E) as (fs' & Hw & Hr & Hs).
  exists fs'. rewrite Hw, Hr. auto.
Qed.

(** What [read] returns is the translation of what the file holds. *)
Lemma read_is_stored (path : string) (fs : node) (contents : string) :
  read path fs = Some contents ->
  exists raw, stored path fs = Some raw /\ contents = universal_newlines raw.
Proof.
  unfold read. destruct (stored path fs) as [raw|]; [|discriminate].
  destruct (utf8_valid raw); [|discriminate].
  intros H. injection H as <-. exists raw. auto.
Qed.

Lemma read_isfile (path : string) (fs : node) (contents : string) :
  read path fs = Some contents -> isfile path fs = true.
Proof.
  intros H. apply read_is_stored in H as (raw & H & _).
  unfold isfile. unfold stored in H.
  destruct (resolve path fs) as [[d|es]|]; (reflexivity || discriminate).
Qed.

End Files.

Section Commands.
Import Main.

Lemma keeps_names_ret {A : Type} (a : A) : keeps_names (ret a).
Proof. intros w. reflexivity. Qed.

Lemma keeps_names_bind {A B : Type} (c : io A) (k : A -> io B) :
  keeps_names c -> (forall a, keeps_names (k a)) -> keeps_names (bind c k).
Proof.
  intros Hc Hk w. unfold bind. specialize (Hc w).
  destruct (c w) as [[a|p|] w']; simpl in *; [|assumption|assumption].
  rewrite <- Hc. apply Hk.
Qed.

Lemma keeps_names_print (line : string) : keeps_names (print line).
Proof. intros w. reflexivity. Qed.

Lemma keeps_names_if {A : Type} (b : bool) (c1 c2 : io A) :
  keeps_names c1 -> keeps_names c2 -> keeps_names (if b then c1 else c2).
Proof. now destruct b. Qed.

Lemma convert_java_keeps_names (fuel : nat) (filepath : string) :
  keeps_names (convert_java fuel filepath).
Proof.
  intros w. unfold convert_java, bind, open_read.
  destruct (FS.read filepath (files w)) as [old|] eqn:Er; [|reflexivity].
  destruct (Convert.convert_java_text fuel old) as [[new ws]|]; [|reflexivity].
  unfold open_write. cbn [files].
  destruct (read_is_stored _ _ _ Er) as (raw & Hraw & _).
  destruct (write_existing filepath new _ _ Hraw) as (fs' & Hw & _ & Hs). rewrite Hw.
  exact Hs.
Qed.

Lemma convert_pom_keeps_names (filepath : string) : keeps_names (convert_pom filepath).
Proof.
  intros w. unfold convert_pom, bind, open_read.
  destruct (FS.read filepath (files w)) as [old|] eqn:Er; [|reflexivity].
  unfold open_write. cbn [files].
  destruct (read_is_stored _ _ _ Er) as (raw & Hraw & _).
  destruct (write_existing filepath (Convert.convert_pom_text old) _ _ Hraw)
    as (fs' & Hw & _ & Hs).
  rewrite Hw. exact Hs.
Qed.

Lemma walk_files_keeps_names (fuel : nat) (root : string) (fls : list string) :
  forall warnings, keeps_names (walk_files fuel root fls warnings).
Proof.
  induction fls as [|path rest IH]; intros warnings; cbn [walk_files].
  - apply keeps_names_ret.
  - apply keeps_names_bind.
    + apply keeps_names_if; [|apply keeps_names_ret].
      apply keeps_names_bind; [apply convert_java_keeps_names|].
      intros a. apply keeps_names_ret.
    + intros ws. apply keeps_names_bind; [|intros _; apply IH].
      apply keeps_names_if; [apply convert_pom_keeps_names | apply keeps_names_ret].
Qed.

Lemma walk_dirs_keeps_names (fuel : nat) (triples : list (string * list string * list string)) :
  forall warnings, keeps_names (walk_dirs fuel triples warnings).
Proof.
  induction triples as [|[[root dirs] fls] rest IH]; intros warnings; cbn [walk_dirs].
  - apply keeps_names_ret.
  - apply keeps_names_bind; [apply walk_files_keeps_names | intros ws; apply IH].
Qed.

Lemma process_arg_keeps_names (fuel : nat) (filepath : string) (warnings : warn_dict) :
  keeps_names (process_arg fuel filepath warnings).
Proof.
  unfold process_arg. apply keeps_names_bind; [intros w; reflexivity|]. intros f.
  apply keeps_names_if.
  - apply keeps_names_bind; [apply convert_java_keeps_names | intros; apply keeps_names_ret].
  - apply keeps_names_if.
    + apply keeps_names_bind; [apply convert_pom_keeps_names | intros; apply keeps_names_ret].
    + apply keeps_names_bind; [intros w; reflexivity|]. intros d.
      apply keeps_names_if.
      * apply keeps_names_bind; [intros w; reflexivity|]. intros t.
        apply walk_dirs_keeps_names.
      * apply keeps_names_bind; [apply keeps_names_print | intros; apply keeps_names_ret].
Qed.

Lemma process_args_keeps_names (fuel : nat) (argv : list string) :
  forall warnings, keeps_names (process_args fuel argv warnings).
Proof.
  induction argv as [|a argv IH]; intros warnings; cbn [process_args].
  - apply keeps_names_ret.
  - apply keeps_names_bind; [apply process_arg_keeps_names | intros ws; apply IH].
Qed.

Lemma print_warnings_keeps_names (ws : list (option string)) : keeps_names (print_warnings ws).
Proof.
  induction ws as [|[w|] ws IH]; cbn [print_warnings].
  - apply keeps_names_ret.
  - apply keeps_names_bind; [apply keeps_names_print | intros; apply IH].
  - apply IH.
Qed.

Lemma report_keeps_names (warnings : warn_dict) : keeps_names (report warnings).
Proof.
  induction warnings as [|[filepath ws] rest IH]; cbn [report].
  - apply keeps_names_ret.
  - apply keeps_names_bind; [|intros; apply IH].
    destruct ws as [|w ws]; [apply keeps_names_ret|].
    apply keeps_names_if; [apply keeps_names_ret|].
    apply keeps_names_bind; [apply keeps_names_print | intros; apply print_warnings_keeps_names].
Qed.

Lemma usage_keeps_names : keeps_names usage.
Proof.
  unfold usage. repeat (apply keeps_names_bind; [apply keeps_names_print | intros _]).
  apply keeps_names_print.
Qed.

(** X18.  The Java/POM tool creates, deletes and renames nothing: after a
    run, however it ends, the tree has the files and directories it had. *)
Theorem convert_keeps_names (fuel : nat) (argv : list string) (fs : FS.node) :
  shape (files (snd (run fuel argv fs))) = shape fs.
Proof.
  unfold run.
  assert (H : keeps_names (main fuel argv)).
  { unfold main. apply keeps_names_bind; [apply process_args_keeps_names|]. intros ws.
    apply keeps_names_bind; [apply report_keeps_names|]. intros _.
    apply keeps_names_if; [apply usage_keeps_names | apply keeps_names_ret]. }
  exact (H (World fs [])).
Qed.

(** ** Arguments that are not taken *)

Lemma process_arg_unsuitable (fuel : nat) (filepath : string) (warnings : warn_dict) (w : world) :
  unsuitable (files w) filepath ->
  process_arg fuel filepath warnings w
  = (Done warnings,
     World (files w)
           (stdout w ++ [filepath ++ " is not a valid Java file, pom.xml, or directory."])).
Proof.
  intros [Hd Hf]. unfold process_arg, bind, isfile, isdir.
  destruct (FS.isfile filepath (files w)).
  - destruct (Hf eq_refl) as [-> ->]. cbn [andb]. now rewrite Hd.
  - cbn [andb]. now rewrite Hd.
Qed.

Lemma process_args_unsuitable (fuel : nat) (argv : list string) :
  forall warnings w,
    Forall (unsuitable (files w)) argv ->
    process_args fuel argv warnings w
    = (Done warnings,
       World (files w)
             (stdout w
              ++ map (fun p => p ++ " is not a valid Java file, pom.xml, or directory.") argv)).
Proof.
  induction argv as [|a argv IH]; intros warnings w H; cbn [process_args].
  - simpl. rewrite app_nil_r. now destruct w.
  - inversion H as [|a' argv' Ha Hrest]; subst.
    unfold bind. rewrite (process_arg_unsuitable fuel a warnings w Ha).
    rewrite IH by exact Hrest. cbn [files stdout map]. now rewrite <- app_assoc.
Qed.

(** X19.  Arguments that are neither an existing [.java] file, nor the
    existing file [pom.xml], nor a directory: one line is printed for
    each, in order, nothing else happens and the run ends normally. *)
Theorem convert_rejects_unsuitable (fuel : nat) (argv : list string) (fs : FS.node) :
  argv <> [] ->
  Forall (unsuitable fs) argv ->
  run fuel argv fs
  = (Done tt,
     World fs (map (fun p => p ++ " is not a valid Java file, pom.xml, or directory.") argv)).
Proof.
  intros Hne H. unfold run, main, bind.
  rewrite (process_args_unsuitable fuel argv [] (World fs []) H).
  cbn [report ret files stdout app].
  destruct argv; [contradiction | reflexivity].
Qed.

Lemma convert_rejects_unsuitable_witness :
  Sample.stray_args <> []
  /\ Forall (unsuitable Scenario.with_notes) Sample.stray_args
  /\ run 0 Sample.stray_args Scenario.with_notes
     = (Done tt,
        World Scenario.with_notes
              (map (fun p => p ++ " is not a valid Java file, pom.xml, or directory.")
                   Sample.stray_args)).
Proof.
  assert (Hne : Sample.stray_args <> []) by discriminate.
  assert (H : Forall (unsuitable Scenario.with_notes) Sample.stray_args).
  { repeat constructor; try reflexivity; vm_compute; intros; (discriminate || split; reflexivity). }
  split; [exact Hne|]. split; [exact H|].
  exact (convert_rejects_unsuitable 0 Sample.stray_args Scenario.with_notes Hne H).
Defined.

(** X20.  A [.java] file named on the command line whose text, as
    [read] returns it (decoded, every [CR LF] and [CR] an [LF]), is
    ASCII: the file then holds the rewritten text, the only line printed
    is [Converted <path>] (its warnings are not reported), and the names
    in the tree are as before. *)
Theorem convert_direct_java_file (fuel : nat) (path : string) (fs : FS.node)
        (contents contents' : string) (warnings : list (option string)) :
  FS.read path fs = Some contents ->
  Py.is_ascii contents = true ->
  (last5 path =? ".java")%string = true ->
  Convert.convert_java_text fuel contents = Some (contents', warnings) ->
  exists fs',
    run fuel [path] fs = (Done tt, World fs' ["Converted " ++ path])
    /\ FS.stored path fs' = Some contents'
    /\ shape fs' = shape fs.
Proof.
  intros Hr _ Hj Hc.
  destruct (read_is_stored _ _ _ Hr) as (raw & Hraw & _).
  destruct (write_existing path contents' fs raw Hraw) as (fs' & Hw & Hr' & Hs).
  exists fs'. split; [|auto].
  unfold run, main, bind, process_args, process_arg, bind, isfile.
  cbn [files stdout].
  rewrite (read_isfile _ _ _ Hr), Hj. cbn [andb].
  unfold convert_java, bind, open_read. cbn [files]. rewrite Hr, Hc.
  unfold open_write. cbn [files]. rewrite Hw. reflexivity.
Qed.

Lemma convert_direct_java_file_witness :
  FS.stored "A.java" Sample.crlf_java_file = Some Sample.crlf_java
  /\ FS.read "A.java" Sample.crlf_java_file = Some Sample.lf_java
  /\ Py.is_ascii Sample.lf_java = true
  /\ (last5 "A.java" =? ".java")%string = true
  /\ Convert.convert_java_text 0 Sample.lf_java = Some (Sample.lf_java, [Some Convert.sub_component_warning])
  /\ exists fs',
       run 0 ["A.java"] Sample.crlf_java_file = (Done tt, World fs' ["Converted " ++ "A.java"])
       /\ FS.stored "A.java" fs' = Some Sample.lf_java
       /\ shape fs' = shape Sample.crlf_java_file.
Proof.
  assert (Hc : Convert.convert_java_text 0 Sample.lf_java = Some (Sample.lf_java, [Some Convert.sub_component_warning]))
    by (vm_compute; reflexivity).
  split; [reflexivity|]. split; [reflexivity|]. split; [reflexivity|].
  split; [reflexivity|]. split; [exact Hc|].
  exact (convert_direct_java_file 0 "A.java" Sample.crlf_java_file _ _ _
           eq_refl eq_refl eq_refl Hc).
Defined.

End Commands.

Section CapabilityCommands.
Import Main AppiumMain.

Lemma print_all_keeps_names (lines : list string) : keeps_names (print_all lines).
Proof.
  induction lines as [|l lines IH]; cbn [print_all].
  - apply keeps_names_ret.
  - apply keeps_names_bind; [apply keeps_names_print | intros; apply IH].
Qed.

Lemma print_all_prints (lines : list string) (w : world) :
  print_all lines w = (Done tt, World (files w) (stdout w ++ lines)).
Proof.
  revert w. induction lines as [|l lines IH]; intros w; cbn [print_all].
  - unfold ret. rewrite app_nil_r. now destruct w.
  - unfold bind, print. rewrite IH. cbn [files stdout]. now rewrite <- app_assoc.
Qed.

Lemma update_appium_keeps_names (filepath : string) :
  keeps_names (update_appium_capabilities filepath).
Proof.
  intros w. unfold update_appium_capabilities, bind, open_read.
  destruct (FS.read filepath (files w)) as [old|] eqn:Er; [|reflexivity].
  destruct (Appium.update_appium_capabilities_text filepath old) as [new printed].
  rewrite print_all_prints. unfold open_write. cbn [files stdout].
  destruct (read_is_stored _ _ _ Er) as (raw & Hraw & _).
  destruct (write_existing filepath new _ _ Hraw) as (fs' & Hw & _ & Hs). rewrite Hw.
  exact Hs.
Qed.

Lemma appium_walk_files_keeps_names (root : string) (fls : list string) :
  keeps_names (AppiumMain.walk_files root fls).
Proof.
  induction fls as [|path rest IH]; cbn [AppiumMain.walk_files].
  - apply keeps_names_ret.
  - apply keeps_names_bind; [|intros; apply IH].
    apply keeps_names_if; [|apply keeps_names_ret].
    apply keeps_names_bind; [apply keeps_names_print | intros; apply update_appium_keeps_names].
Qed.

Lemma appium_walk_dirs_keeps_names (triples : list (string * list string * list string)) :
  keeps_names (AppiumMain.walk_dirs triples).
Proof.
  induction triples as [|[[root dirs] fls] rest IH]; cbn [AppiumMain.walk_dirs].
  - apply keeps_names_ret.
  - apply keeps_names_bind; [apply appium_walk_files_keeps_names | intros; apply IH].
Qed.

Lemma appium_process_arg_keeps_names (filepath : string) :
  keeps_names (AppiumMain.process_arg filepath).
Proof.
  unfold AppiumMain.process_arg. apply keeps_names_bind; [intros w; reflexivity|]. intros f.
  apply keeps_names_if; [apply update_appium_keeps_names|].
  apply keeps_names_bind; [intros w; reflexivity|]. intros d.
  apply keeps_names_if; [|apply keeps_names_print].
  apply keeps_names_bind; [intros w; reflexivity|]. intros t.
  apply appium_walk_dirs_keeps_names.
Qed.

(** X21.  The capability tool creates, deletes and renames nothing. *)
Theorem appium_keeps_names (argv : list string) (fs : FS.node) :
  shape (files (snd (AppiumMain.run argv fs))) = shape fs.
Proof.
  unfold AppiumMain.run.
  assert (H : keeps_names (AppiumMain.main argv)).
  { unfold AppiumMain.main. apply keeps_names_bind.
    - induction argv as [|a argv IH]; cbn [AppiumMain.process_args].
      + apply keeps_names_ret.
      + apply keeps_names_bind; [apply appium_process_arg_keeps_names | intros; apply IH].
    - intros _. apply keeps_names_if; [|apply keeps_names_ret].
      unfold AppiumMain.usage.
      repeat (apply keeps_names_bind; [apply keeps_names_print | intros _]).
      apply keeps_names_print. }
  exact (H (World fs [])).
Qed.

Lemma appium_process_arg_unsuitable (filepath : string) (w : world) :
  unsuitable_json (files w) filepath ->
  AppiumMain.process_arg filepath w
  = (Done tt,
     World (files w) (stdout w ++ [filepath ++ " is not a valid json file or directory."])).
Proof.
  intros [Hd Hf]. unfold AppiumMain.process_arg, bind, isfile, isdir.
  destruct (FS.isfile filepath (files w)).
  - rewrite (Hf eq_refl). cbn [andb]. now rewrite Hd.
  - cbn [andb]. now rewrite Hd.
Qed.

Lemma appium_process_args_unsuitable (argv : list string) :
  forall w,
    Forall (unsuitable_json (files w)) argv ->
    AppiumMain.process_args argv w
    = (Done tt,
       World (files w)
             (stdout w ++ map (fun p => p ++ " is not a valid json file or directory.") argv)).
Proof.
  induction argv as [|a argv IH]; intros w H; cbn [AppiumMain.process_args].
  - simpl. rewrite app_nil_r. now destruct w.
  - inversion H as [|a' argv' Ha Hrest]; subst.
    unfold bind. rewrite (appium_process_arg_unsuitable a w Ha).
    rewrite IH by exact Hrest. cbn [files stdout map]. now rewrite <- app_assoc.
Qed.

(** X22.  Arguments that are neither an existing [.json] file nor a
    directory: one line is printed for each, nothing else happens. *)
Theorem appium_rejects_unsuitable (argv : list string) (fs : FS.node) :
  argv <> [] ->
  Forall (unsuitable_json fs) argv ->
  AppiumMain.run argv fs
  = (Done tt, World fs (map (fun p => p ++ " is not a valid json file or directory.") argv)).
Proof.
  intros Hne H. unfold AppiumMain.run, AppiumMain.main, bind.
  rewrite (appium_process_args_unsuitable argv (World fs []) H).
  destruct argv; [contradiction | reflexivity].
Qed.

Lemma appium_rejects_unsuitable_witness :
  Sample.stray_args <> []
  /\ Forall (unsuitable_json Scenario.with_notes) Sample.stray_args
  /\ AppiumMain.run Sample.stray_args Scenario.with_notes
     = (Done tt,
        World Scenario.with_notes
              (map (fun p => p ++ " is not a valid json file or directory.")
                   Sample.stray_args)).
Proof.
  assert (Hne : Sample.stray_args <> []) by discriminate.
  assert (H : Forall (unsuitable_json Scenario.with_notes) Sample.stray_args).
  { repeat constructor; try reflexivity; vm_compute; intros; discriminate. }
  split; [exact Hne|]. split; [exact H|].
  exact (appium_rejects_unsuitable Sample.stray_args Scenario.with_notes Hne H).
Defined.

(** X23.  A [.json] file named on the command line whose text, as
    [read] returns it, is ASCII: the lines of the passes are printed and
    the file then holds the rewritten text. *)
Theorem appium_direct_json_file (path : string) (fs : FS.node) (contents : string) :
  FS.read path fs = Some contents ->
  Py.is_ascii contents = true ->
  (last5 path =? ".json")%string = true ->
  exists fs',
    AppiumMain.run [path] fs
    = (Done tt, World fs' (snd (Appium.update_appium_capabilities_text path contents)))
    /\ FS.stored path fs' = Some (fst (Appium.update_appium_capabilities_text path contents))
    /\ shape fs' = shape fs.
Proof.
  intros Hr _ Hj.
  destruct (read_is_stored _ _ _ Hr) as (raw & Hraw & _).
  destruct (write_existing path (fst (Appium.update_appium_capabilities_text path contents))
              fs raw Hraw) as (fs' & Hw & Hr' & Hs).
  exists fs'. split; [|auto].
  unfold AppiumMain.run, AppiumMain.main, AppiumMain.process_args, AppiumMain.process_arg.
  unfold bind, isfile. cbn [files stdout].
  rewrite (read_isfile _ _ _ Hr), Hj. cbn [andb].
  unfold update_appium_capabilities, bind, open_read. cbn [files]. rewrite Hr.
  destruct (Appium.update_appium_capabilities_text path contents) as [new printed].
  rewrite print_all_prints. unfold open_write. cbn [files stdout fst snd] in *.
  rewrite Hw. reflexivity.
Qed.

End CapabilityCommands.

(* ================================================================== *)
(** * The capability passes *)
(* ================================================================== *)

Section Capabilities.
Import Appium.

Lemma quoted_has_quote (s : string) : lacks dq (quoted s) = false.
Proof. reflexivity. Qed.

(** A text without a double quote holds no text that has one. *)
Lemma contains_quoted_none (p contents : string) :
  lacks dq p = false -> lacks dq contents = true -> contains p contents = false.
Proof.
  intros Hp Hc. destruct (contains p contents) eqn:E; [|reflexivity].
  rewrite (contains_lacks dq p contents E Hc) in Hp. discriminate.
Qed.

Lemma remove_unused_value_unquoted (filepath option value : string) (b : buffer) :
  lacks dq (fst b) = true -> remove_unused_value filepath option b value = b.
Proof.
  destruct b as [contents out]. intros Hc. unfold remove_unused_value.
  rewrite !(contains_quoted_none _ contents) by (reflexivity || exact Hc). reflexivity.
Qed.

Lemma update_capability_unquoted (filepath : string) (b : buffer) (entry : string * list string) :
  lacks dq (fst b) = true -> update_capability filepath b entry = b.
Proof.
  destruct entry as [capability cap_scope]. intros Hc. unfold update_capability.
  now rewrite (contains_quoted_none _ _ (quoted_has_quote capability) Hc).
Qed.

(** X24.  A text without any double quote is written back as it is, and
    nothing is printed. *)
Theorem appium_unquoted_untouched (filepath contents : string) :
  lacks dq contents = true ->
  update_appium_capabilities_text filepath contents = (contents, []).
Proof.
  intros Hc. unfold update_appium_capabilities_text.
  assert (H1 : remove_unused_options filepath (contents, []) = (contents, [])).
  { unfold remove_unused_options, unused_applause_options. cbn [fold_left].
    rewrite (remove_unused_value_unquoted filepath "isStrict" "true" (contents, [])) by exact Hc.
    rewrite (remove_unused_value_unquoted filepath "isStrict" "false" (contents, [])) by exact Hc.
    apply remove_unused_value_unquoted. exact Hc. }
  rewrite H1. unfold update_capabilities.
  induction capabilities_to_update as [|e table IH]; [reflexivity|].
  cbn [fold_left]. rewrite update_capability_unquoted by exact Hc. exact IH.
Qed.

Lemma appium_unquoted_untouched_witness :
  lacks dq Sample.unquoted_caps = true
  /\ update_appium_capabilities_text "caps.json" Sample.unquoted_caps
     = (Sample.unquoted_caps, []).
Proof.
  split; [reflexivity | exact (appium_unquoted_untouched "caps.json" Sample.unquoted_caps eq_refl)].
Defined.

Lemma two_parts (ls : list string) :
  List.length ls = 2 -> ls = [nth 0 ls ""; nth 1 ls ""].
Proof. destruct ls as [|a [|b [|c ls]]]; simpl; intros H; (discriminate || reflexivity). Qed.

(** X25.  A capability none of whose scopes names a driver type found in
    the lower-cased text is not renamed; one line is printed for every
    scope. *)
Theorem update_scopes_no_driver (filepath capability : string) (cap_scope : list string)
        (contents : string) (out : list string) :
  (forall scope t d, In scope cap_scope -> split "_" scope = [t; d] ->
                     contains t (lower contents) = false) ->
  fst (update_scopes filepath capability cap_scope (contents, out)) = contents
  /\ List.length (snd (update_scopes filepath capability cap_scope (contents, out)))
     = List.length out + List.length cap_scope.
Proof.
  revert out. induction cap_scope as [|scope rest IH]; intros out H; cbn [update_scopes].
  - simpl. split; [reflexivity | lia].
  - assert (Hrest : forall scope0 t d, In scope0 rest -> split "_" scope0 = [t; d] ->
                                       contains t (lower contents) = false)
      by (intros s t d Hs; apply (H s t d); now right).
    destruct (List.length (split "_" scope) =? 2) eqn:El; cbn [negb].
    + apply Nat.eqb_eq in El. pose proof (two_parts _ El) as Hp.
      rewrite (H scope _ _ (or_introl eq_refl) Hp). cbn [negb].
      match goal with |- context [update_scopes _ _ rest (contents, ?o)] =>
        destruct (IH o Hrest) as [H1 H2] end.
      split; [exact H1|]. rewrite H2, length_app. simpl. lia.
    + match goal with |- context [update_scopes _ _ rest (contents, ?o)] =>
        destruct (IH o Hrest) as [H1 H2] end.
      split; [exact H1|]. rewrite H2, length_app. simpl. lia.
Qed.

Lemma update_scopes_no_driver_witness :
  (forall scope t d, In scope Sample.device_name_scopes ->
                     split "_" scope = [t; d] ->
                     contains t (lower Scenario.caps_tight) = false)
  /\ fst (update_scopes "caps.json" "deviceName" Sample.device_name_scopes
                        (Scenario.caps_tight, [])) = Scenario.caps_tight.
Proof.
  assert (H : forall scope t d,
             In scope Sample.device_name_scopes ->
             split "_" scope = [t; d] ->
             contains t (lower Scenario.caps_tight) = false).
  { intros scope t d Hin Hs.
    repeat (destruct Hin as [<-|Hin];
            [vm_compute in Hs; injection Hs as <- <-; vm_compute; reflexivity|]).
    contradiction. }
  split; [exact H|].
  exact (proj1 (update_scopes_no_driver "caps.json" "deviceName" _ Scenario.caps_tight [] H)).
Defined.

Lemma replace_scan_delete_le (old : string) :
  forall s k, length (replace_scan old "" k s) <= length s.
Proof.
  induction s as [|c s IH]; intros k; cbn [replace_scan]; [simpl; lia|].
  destruct k as [|k].
  - destruct (prefix old (String c s)).
    + simpl. specialize (IH (length old - 1)). lia.
    + simpl. specialize (IH 0). lia.
  - simpl. specialize (IH k). lia.
Qed.

Lemma replace_delete_le (old s : string) : length (replace old "" s) <= length s.
Proof.
  destruct old as [|a old]; [|apply replace_scan_delete_le].
  simpl. induction s as [|c s IH]; simpl; lia.
Qed.

Lemma remove_unused_value_le (filepath option value : string) (b : buffer) :
  length (fst (remove_unused_value filepath option b value)) <= length (fst b).
Proof.
  destruct b as [contents out]. unfold remove_unused_value.
  destruct (contains (pair_tight option value) contents); [apply replace_delete_le|].
  destruct (contains (pair_spaced option value) contents); [apply replace_delete_le|].
  simpl. lia.
Qed.

Lemma rename_ge (capability s : string) :
  length s <= length (replace (quoted capability) (quoted ("appium:" ++ capability)) s).
Proof.
  rewrite (replace_nonempty _ _ (quoted_nonempty capability)).
  pose proof (replace_scan_length_ge (quoted capability) (quoted ("appium:" ++ capability))) as H.
  specialize (H ltac:(rewrite length_quoted; lia)
                ltac:(rewrite !length_quoted, length_append; simpl; lia) s 0).
  lia.
Qed.

Lemma update_scopes_ge (filepath capability : string) (cap_scope : list string) :
  forall b, length (fst b) <= length (fst (update_scopes filepath capability cap_scope b)).
Proof.
  induction cap_scope as [|scope rest IH]; intros [contents out]; cbn [update_scopes]; [lia|].
  repeat match goal with
         | |- context [if ?c then _ else _] => destruct c
         end;
    try (eapply Nat.le_trans; [|apply IH]; cbn [fst]; (lia || apply rename_ge)).
Qed.

Lemma update_capability_ge (filepath : string) (b : buffer) (entry : string * list string) :
  length (fst b) <= length (fst (update_capability filepath b entry)).
Proof.
  destruct entry as [capability cap_scope]. unfold update_capability.
  destruct (negb (contains (quoted capability) (fst b))); [lia|].
  destruct (existsb (String.eqb "all") cap_scope).
  - destruct b as [contents out]. apply rename_ge.
  - apply update_scopes_ge.
Qed.

(** X26.  The removal phase only deletes and the rename phase only adds:
    the text is never longer after the first, never shorter after the
    second. *)
Theorem appium_phases_lengths (filepath : string) (b : buffer) :
  length (fst (remove_unused_options filepath b)) <= length (fst b)
  /\ length (fst b) <= length (fst (update_capabilities filepath b)).
Proof.
  split.
  - unfold remove_unused_options, unused_applause_options. cbn [fold_left].
    repeat (eapply Nat.le_trans; [apply remove_unused_value_le|]). lia.
  - unfold update_capabilities. revert b.
    induction capabilities_to_update as [|e table IH]; intros b; cbn [fold_left]; [lia|].
    eapply Nat.le_trans; [apply (update_capability_ge filepath b e) | apply IH].
Qed.

End Capabilities.

Lemma appium_direct_json_file_witness :
  FS.stored "caps.json" Sample.crlf_caps_file = Some Sample.crlf_caps
  /\ FS.read "caps.json" Sample.crlf_caps_file = Some Sample.lf_caps
  /\ Py.is_ascii Sample.lf_caps = true
  /\ (Main.last5 "caps.json" =? ".json")%string = true
  /\ exists fs',
       AppiumMain.run ["caps.json"] Sample.crlf_caps_file
       = (Main.Done tt,
          Main.World fs'
            (snd (Appium.update_appium_capabilities_text "caps.json" Sample.lf_caps)))
       /\ FS.stored "caps.json" fs'
          = Some (fst (Appium.update_appium_capabilities_text "caps.json" Sample.lf_caps))
       /\ Tree.shape fs' = Tree.shape Sample.crlf_caps_file.
Proof.
  split; [reflexivity|]. split; [reflexivity|]. split; [reflexivity|]. split; [reflexivity|].
  exact (appium_direct_json_file "caps.json" Sample.crlf_caps_file Sample.lf_caps
           eq_refl eq_refl eq_refl).
Defined.

(** X15.  The occurrences of [te(] in a text are a sufficient budget for
    [remove_sdk_helper_create], and a larger budget gives the same text. *)
Theorem sdk_helper_budget (contents : string) :
  exists out, forall fuel,
    weight contents <= fuel -> remove_sdk_helper_create fuel contents = Some out.
Proof.
  destruct (sdk_loop_terminates (weight contents) contents
              (Re.search sdk_create_first contents) (le_n _) (or_introl eq_refl))
    as (out & Hout & _).
  exists out. intros fuel Hle. unfold remove_sdk_helper_create.
  eapply sdk_loop_more_fuel; eauto.
Qed.

Lemma fix_locators_without_backslash_witness :
  lacks "\" Scenario.login_page = true
  /\ fix_locators Scenario.login_page
     = fold_left
         (fun c '(old_style_locator, new_style_locator) =>
            Re.sub (Re.compile old_style_locator) ("@Locate(" ++ new_style_locator) c)
         locators Scenario.login_page.
Proof.
  split; [reflexivity | exact (fix_locators_without_backslash Scenario.login_page eq_refl)].
Defined.

(* ================================================================== *)
(** * When the warning is sure to come *)
(* ================================================================== *)

Section Warned.
Import Re.

(** A greedy [.*] can stop after any run of characters without a newline. *)
Lemma star_any_reaches {A : Type} (k : string -> caps -> option A) (cs : caps) (rest : string) :
  k rest cs <> None ->
  forall m fuel, lacks nl m = true -> length m <= fuel ->
    star_rounds (rmatch (Atom (CAny false))) k fuel (m ++ rest) cs <> None.
Proof.
  intros Hk. induction m as [|c m IH]; intros fuel Hm Hf.
  - change ("" ++ rest) with rest. destruct fuel as [|fuel]; [exact Hk|].
    cbn [star_rounds]. destruct (rmatch _ rest cs _); [discriminate | exact Hk].
  - destruct fuel as [|fuel]; [simpl in Hf; lia|].
    simpl in Hm. apply andb_true_iff in Hm as [Hc Hm].
    change (String c m ++ rest) with (String c (m ++ rest)).
    cbn [star_rounds rmatch cls_match]. rewrite Hc. cbn [orb].
    assert (Hlt : (length (m ++ rest) <? length (String c (m ++ rest))) = true)
      by (apply Nat.ltb_lt; simpl; lia).
    rewrite Hlt.
    specialize (IH fuel Hm ltac:(simpl in Hf; lia)).
    destruct (star_rounds _ k fuel (m ++ rest) cs); [discriminate | contradiction].
Qed.

Lemma search_from_found (r : regex) (s : string) :
  match_at r s <> None -> forall pre i, search_from r i (pre ++ s) <> None.
Proof.
  intros Hm. induction pre as [|c pre IH]; intros i.
  - change ("" ++ s) with s. destruct s; cbn [search_from];
      destruct (match_at r _) as [[n cs]|]; (discriminate || contradiction).
  - change (String c pre ++ s) with (String c (pre ++ s)). cbn [search_from].
    destruct (match_at r (String c (pre ++ s))) as [[n cs]|]; [discriminate | apply IH].
Qed.

Lemma contains_take (p : string) (n : nat) (s : string) :
  contains p (take n s) = true -> contains p s = true.
Proof.
  intros H. rewrite <- (take_drop n s).
  revert H. generalize (take n s) as a, (drop n s) as b. clear.
  induction a as [|c a IH]; intros b H.
  - cbn [contains] in H. rewrite orb_false_r in H.
    destruct p; [|discriminate]. now destruct b.
  - change (String c a ++ b) with (String c (a ++ b)). cbn [contains] in *.
    apply orb_true_iff in H as [H|H].
    + assert (Hp : prefix p (String c (a ++ b)) = true).
      { apply prefix_correct in H. apply prefix_correct.
        change (String c (a ++ b)) with (String c a ++ b).
        clear IH. revert H. generalize (String c a) as x. intros x. revert p.
        induction x as [|d x IHx]; intros p H.
        - destruct p; [now destruct b | discriminate H].
        - destruct p as [|e p]; [reflexivity|]. simpl in *.
          injection H as -> H. f_equal. now apply IHx. }
      now rewrite Hp.
    + rewrite (IH b H). apply orb_true_r.
Qed.

(** Every text yielded by [re.finditer] lies in the text searched. *)
Lemma finditer_scan_within (p : string) (r : regex) :
  forall s k, contains p s = false ->
    Forall (fun g => contains p g = false) (finditer_scan r k s).
Proof.
  induction s as [|c s IH]; intros k Hc.
  - destruct k; cbn [finditer_scan]; [|constructor].
    destruct (match_at r "") as [[n cs]|]; constructor; [|constructor].
    destruct n; exact Hc.
  - assert (Hs : contains p s = false) by (eapply contains_tail; eauto).
    destruct k as [|k]; cbn [finditer_scan]; [|now apply IH].
    destruct (match_at r (String c s)) as [[n cs]|]; [|now apply IH].
    constructor; [|now apply IH].
    destruct (contains p (take n (String c s))) eqn:E; [|reflexivity].
    apply contains_take in E. congruence.
Qed.

End Warned.

(** X27.  A text that holds [@Locate(], then characters without a newline,
    then [)], and nowhere the word [using], gets the warning. *)
Theorem sub_components_warned (before inside after : string) :
  lacks nl inside = true ->
  contains "using" (before ++ "@Locate(" ++ inside ++ ")" ++ after) = false ->
  check_for_sub_components (before ++ "@Locate(" ++ inside ++ ")" ++ after)
  = Some sub_component_warning.
Proof.
  intros Hin Hu. unfold check_for_sub_components, Re.finditer.
  set (text := before ++ "@Locate(" ++ inside ++ ")" ++ after) in *.
  set (r := Re.compile "@Locate\(.*\)").
  assert (Hm : Re.match_at r ("@Locate(" ++ inside ++ ")" ++ after) <> None).
  { unfold Re.match_at.
    change r with (Re.Seq (Re.Atom (Re.CChar "@")) (Re.Seq (Re.Atom (Re.CChar "L"))
             (Re.Seq (Re.Atom (Re.CChar "o")) (Re.Seq (Re.Atom (Re.CChar "c"))
             (Re.Seq (Re.Atom (Re.CChar "a")) (Re.Seq (Re.Atom (Re.CChar "t"))
             (Re.Seq (Re.Atom (Re.CChar "e")) (Re.Seq (Re.Atom (Re.CChar "("))
             (Re.Seq (Re.Star (Re.Atom (Re.CAny false)))
             (Re.Seq (Re.Atom (Re.CChar ")")) Re.Eps)))))))))).
    cbn [append Re.rmatch Re.cls_match Ascii.eqb Bool.eqb].
    apply star_any_reaches.
    - cbn [append Re.rmatch Re.cls_match Ascii.eqb Bool.eqb]. discriminate.
    - exact Hin.
    - rewrite length_append. lia. }
  pose proof (search_from_found r _ Hm before 0) as Hs.
  pose proof (finditer_scan_some_match r text 0 Hs) as Hne.
  pose proof (finditer_scan_within "using" r text 0 Hu) as Hall.
  destruct (Re.finditer_scan r 0 text) as [|g gs]; [contradiction|].
  inversion Hall as [|g' gs' Hg _]; subst. cbn [existsb]. now rewrite Hg.
Qed.

Lemma sub_components_warned_witness :
  lacks nl "foo" = true
  /\ contains "using" ("" ++ "@Locate(" ++ "foo" ++ ")" ++ "") = false
  /\ check_for_sub_components ("" ++ "@Locate(" ++ "foo" ++ ")" ++ "")
     = Some sub_component_warning.
Proof.
  split; [reflexivity|]. split; [reflexivity|].
  exact (sub_components_warned "" "foo" "" eq_refl eq_refl).
Defined.

(** X28.  The argument [pom.xml], when that file exists and its text,
    as [read] returns it, is ASCII: the file then holds the text with
    the substitutions of [convert_pom] made, and the only line printed
    is [Converted pom.xml]. *)
Theorem convert_direct_pom_file (fuel : nat) (fs : FS.node) (new_pom : string) :
  FS.read "pom.xml" fs = Some new_pom ->
  Py.is_ascii new_pom = true ->
  exists fs',
    Main.run fuel ["pom.xml"] fs = (Main.Done tt, Main.World fs' ["Converted pom.xml"])
    /\ FS.stored "pom.xml" fs' = Some (convert_pom_text new_pom)
    /\ Tree.shape fs' = Tree.shape fs.
Proof.
  intros Hr _.
  destruct (read_is_stored _ _ _ Hr) as (raw & Hraw & _).
  destruct (write_existing "pom.xml" (convert_pom_text new_pom) fs raw Hraw)
    as (fs' & Hw & Hr' & Hs).
  exists fs'. split; [|auto].
  unfold Main.run, Main.main, Main.bind, Main.process_args, Main.process_arg, Main.bind,
    Main.isfile.
  cbn [Main.files Main.stdout].
  rewrite (read_isfile _ _ _ Hr).
  change ((Main.last5 "pom.xml" =? ".java")%string) with false.
  change (("pom.xml" =? "pom.xml")%string) with true. cbn [andb].
  unfold Main.convert_pom, Main.bind, Main.open_read. cbn [Main.files]. rewrite Hr.
  unfold Main.open_write. cbn [Main.files]. rewrite Hw. reflexivity.
Qed.

Lemma convert_direct_pom_file_witness :
  FS.stored "pom.xml" Sample.crlf_pom_file = Some Sample.crlf_pom
  /\ FS.read "pom.xml" Sample.crlf_pom_file = Some Sample.lf_pom
  /\ Py.is_ascii Sample.lf_pom = true
  /\ exists fs',
       Main.run 0 ["pom.xml"] Sample.crlf_pom_file
       = (Main.Done tt, Main.World fs' ["Converted pom.xml"])
       /\ FS.stored "pom.xml" fs' = Some (convert_pom_text Sample.lf_pom)
       /\ Tree.shape fs' = Tree.shape Sample.crlf_pom_file.
Proof.
  split; [reflexivity|]. split; [reflexivity|]. split; [reflexivity|].
  exact (convert_direct_pom_file 0 Sample.crlf_pom_file Sample.lf_pom eq_refl eq_refl).
Defined.

(* ================================================================== *)
(** * The rename loop on a document *)
(* ================================================================== *)

Section Renames.
Import Appium Table.

(** ** Quoted keys in a text *)













(** ** The turns of the loop *)











End Renames.
